(** * Streaming subscription analytics: a model of [streaming_analytics.py]

    The script loads a CSV of subscription records into a pandas DataFrame,
    cleans it, prints summary statistics and draws two charts.  The
    development below embeds the script function by function: [load_data],
    [clean_data] and [main], together with the pandas / numpy operations
    they call, modelled at the level of their documented behaviour.

    - a DataFrame is a list of rows carrying their index labels;
    - a datetime64[ns] value is an integer count of nanoseconds since the
      epoch, the missing marker NaT / NaN is [None] (or [NA] in a raw cell);
    - float64 arithmetic is IEEE 754 binary64 as specified by [SpecFloat];
    - a Python exception is the [Raise] branch of [result];
    - console output and figures are events collected in program order. *)

From Stdlib Require Import ZArith List Bool String Ascii Lia Arith.
From Stdlib Require Import Sorting.Sorted Sorting.Permutation.
From Stdlib Require Import Floats.SpecFloat.
From Stdlib Require Import DecimalString.
Import ListNotations.

Local Open Scope Z_scope.

(** ** Exceptions *)

Inductive exn : Type :=
| ValueError
| IndexError
| OverflowError.

Inductive result (A : Type) : Type :=
| Ok (a : A)
| Raise (e : exn).

Arguments Ok {A} a.
Arguments Raise {A} e.

Definition bind {A B : Type} (m : result A) (k : A -> result B) : result B :=
  match m with
  | Ok a => k a
  | Raise e => Raise e
  end.

Declare Scope result_scope.
Delimit Scope result_scope with result.
Notation "x <- m ;; k" := (bind m (fun x => k))
  (at level 61, m at next level, right associativity) : result_scope.

Fixpoint mapM {A B : Type} (f : A -> result B) (l : list A) : result (list B) :=
  match l with
  | [] => Ok []
  | a :: l' =>
      (b <- f a ;;
       bs <- mapM f l' ;;
       Ok (b :: bs))%result
  end.

(** ** Cells, rows and frames *)

(** A cell of an object column as [read_csv] delivers it: the missing marker,
    a text, or (once a column has been converted) a timestamp. *)
Inductive Cell : Type :=
| NA
| Str (s : string)
| Ts (t : Z).

Definition Cell_eq_dec (a b : Cell) : {a = b} + {a <> b}.
Proof.
  decide equality; [apply string_dec | apply Z.eq_dec].
Defined.

(** A row of the table as loaded: the two date columns and the remaining
    columns, which the script never touches. *)
Record RawRow : Type := mkRawRow {
  raw_created_date : Cell;
  raw_canceled_date : Cell;
  raw_extra : list Cell
}.

Definition RawRow_eq_dec (a b : RawRow) : {a = b} + {a <> b}.
Proof.
  decide equality; try apply Cell_eq_dec; apply (list_eq_dec Cell_eq_dec).
Defined.

(** A row once both date columns are datetime64[ns]. *)
Record Row : Type := mkRow {
  created_date : option Z;
  canceled_date : option Z;
  extra : list Cell
}.

Definition Row_eq_dec (a b : Row) : {a = b} + {a <> b}.
Proof.
  decide equality; try apply (list_eq_dec Cell_eq_dec);
    decide equality; apply Z.eq_dec.
Defined.

(** A frame (or a series) pairs every value with its index label. *)
Definition Frame (A : Type) : Type := list (nat * A).

Definition index {A : Type} (df : Frame A) : list nat := map fst df.
Definition values {A : Type} (df : Frame A) : list A := map snd df.

Definition column {A B : Type} (f : A -> B) (df : Frame A) : Frame B :=
  map (fun ir => (fst ir, f (snd ir))) df.

(** [pd.read_csv]: the records of the file under a fresh RangeIndex. *)
Definition load_data (csv : list RawRow) : Frame RawRow :=
  combine (seq 0 (List.length csv)) csv.

(** ** Cleaning *)

(** [DataFrame.drop_duplicates()], [keep='first']: a row is dropped when an
    equal row was met before; labels of the kept rows are preserved. *)
Fixpoint drop_duplicates_from {A : Type}
    (eq_dec : forall a b : A, {a = b} + {a <> b})
    (seen : list A) (df : Frame A) : Frame A :=
  match df with
  | [] => []
  | (i, r) :: rest =>
      if in_dec eq_dec r seen
      then drop_duplicates_from eq_dec seen rest
      else (i, r) :: drop_duplicates_from eq_dec (r :: seen) rest
  end.

Definition drop_duplicates {A : Type}
    (eq_dec : forall a b : A, {a = b} + {a <> b}) (df : Frame A) : Frame A :=
  drop_duplicates_from eq_dec [] df.

Section Cleaning.

(** The string parser behind [pd.to_datetime].  pandas may infer the
    expected format from the column it converts, so the parser receives
    that column next to the text; the result is the timestamp in
    nanoseconds, or [None] when the text is not a date. *)
Variable parse_datetime : list Cell -> string -> option Z.

(** [pd.to_datetime(col)] with the default [errors='raise']: a text that
    is not a date raises, a missing cell stays missing. *)
Definition to_datetime_cell (col : list Cell) (c : Cell) : result (option Z) :=
  match c with
  | NA => Ok None
  | Ts t => Ok (Some t)
  | Str s =>
      match parse_datetime col s with
      | Some t => Ok (Some t)
      | None => Raise ValueError
      end
  end.

Definition to_datetime (col : list Cell) : result (list (option Z)) :=
  mapM (to_datetime_cell col) col.

(** [pd.to_datetime(col, errors='coerce')]: a text that is not a date
    becomes the missing marker. *)
Definition to_datetime_coerce_cell (col : list Cell) (c : Cell) : option Z :=
  match c with
  | NA => None
  | Ts t => Some t
  | Str s => parse_datetime col s
  end.

Definition to_datetime_coerce (col : list Cell) : list (option Z) :=
  map (to_datetime_coerce_cell col) col.

(** The frame whose date columns are replaced by the converted ones. *)
Fixpoint with_dates (df : Frame RawRow) (created canceled : list (option Z))
    : Frame Row :=
  match df, created, canceled with
  | (i, r) :: df', c :: created', x :: canceled' =>
      (i, mkRow c x (raw_extra r)) :: with_dates df' created' canceled'
  | _, _, _ => []
  end.

Definition clean_data (df : Frame RawRow) : result (Frame Row) :=
  let df := drop_duplicates RawRow_eq_dec df in
  (created <- to_datetime (values (column raw_created_date df)) ;;
   let canceled := to_datetime_coerce (values (column raw_canceled_date df)) in
   Ok (with_dates df created canceled))%result.

(** A text of the column that the parser rejects. *)
Definition unparsable (col : list Cell) (c : Cell) : bool :=
  match c with
  | Str s =>
      match parse_datetime col s with
      | Some _ => false
      | None => true
      end
  | _ => false
  end.

(** What a raw row becomes once its two dates are read, the columns being
    [created] and [canceled]. *)
Definition parsed (created canceled : list Cell) (r : RawRow) : Row :=
  mkRow (to_datetime_coerce_cell created (raw_created_date r))
        (to_datetime_coerce_cell canceled (raw_canceled_date r))
        (raw_extra r).

End Cleaning.

(** A cleaned frame handed to [clean_data] again: its date columns hold
    datetime64[ns] values already. *)
Definition as_cell (t : option Z) : Cell :=
  match t with
  | Some z => Ts z
  | None => NA
  end.

Definition as_raw (r : Row) : RawRow :=
  mkRawRow (as_cell (created_date r)) (as_cell (canceled_date r)) (extra r).

Definition reload (df : Frame Row) : Frame RawRow := column as_raw df.

(** ** IEEE 754 binary64, the arithmetic of Python [float] and [numpy.float64] *)

Module Float64.

Definition prec : Z := 53.
Definition emax : Z := 1024.

Definition float : Type := spec_float.

Definition add : float -> float -> float := SFadd prec emax.
Definition sub : float -> float -> float := SFsub prec emax.
Definition mul : float -> float -> float := SFmul prec emax.
Definition div : float -> float -> float := SFdiv prec emax.
Definition sqrt : float -> float := SFsqrt prec emax.

Definition nan : float := S754_nan.
Definition zero : float := S754_zero false.

Definition is_nan (x : float) : bool :=
  match x with
  | S754_nan => true
  | _ => false
  end.

(** Conversion of an integer: the nearest binary64 value, ties to even. *)
Definition of_Z (z : Z) : float := binary_normalize prec emax z 0 false.

(** [int(x)]: truncation toward zero; NaN and the infinities raise. *)
Definition to_int (x : float) : result Z :=
  match x with
  | S754_zero _ => Ok 0
  | S754_finite s m e =>
      let a := match e with
               | Z0 => Zpos m
               | Zpos p => Zpos m * 2 ^ Zpos p
               | Zneg p => Zpos m / 2 ^ Zpos p
               end in
      Ok (if s then - a else a)
  | S754_nan => Raise ValueError
  | S754_infinity _ => Raise OverflowError
  end.

End Float64.

Abbreviation float := Float64.float.

(** ** Calendar arithmetic on datetime64[ns] *)

Definition ns_per_second : Z := 1000000000.
Definition ns_per_day : Z := 86400 * ns_per_second.

(** Days since 1970-01-01 of a date of the proleptic Gregorian calendar. *)
Definition days_from_civil (y m d : Z) : Z :=
  let y' := if m <=? 2 then y - 1 else y in
  let era := y' / 400 in
  let yoe := y' - era * 400 in
  let mp := if 2 <? m then m - 3 else m + 9 in
  let doy := (153 * mp + 2) / 5 + d - 1 in
  let doe := yoe * 365 + yoe / 4 - yoe / 100 + doy in
  era * 146097 + doe - 719468.

(** Year, month and day of a day count since 1970-01-01. *)
Definition civil_from_days (z : Z) : Z * Z * Z :=
  let z' := z + 719468 in
  let era := z' / 146097 in
  let doe := z' - era * 146097 in
  let yoe := (doe - doe / 1460 + doe / 36524 - doe / 146096) / 365 in
  let doy := doe - (365 * yoe + yoe / 4 - yoe / 100) in
  let mp := (5 * doy + 2) / 153 in
  let d := doy - (153 * mp + 2) / 5 + 1 in
  let m := if mp <? 10 then mp + 3 else mp - 9 in
  let y := yoe + era * 400 in
  (if m <=? 2 then y + 1 else y, m, d).

Definition year_of (t : Z) : Z := fst (fst (civil_from_days (t / ns_per_day))).

(** [Timestamp.month]. *)
Definition month_of (t : Z) : Z := snd (fst (civil_from_days (t / ns_per_day))).

(** A monthly period is stored as its ordinal: months since January 1970. *)
Definition period_of_ym (y m : Z) : Z := (y - 1970) * 12 + (m - 1).
Definition period_year (p : Z) : Z := 1970 + p / 12.
Definition period_month (p : Z) : Z := p mod 12 + 1.

(** [Series.dt.to_period('M')] on one value. *)
Definition to_period (t : Z) : Z := period_of_ym (year_of t) (month_of t).

(** [Series.dt.to_timestamp()] on one monthly period: the start of the month. *)
Definition to_timestamp (p : Z) : Z :=
  days_from_civil (period_year p) (period_month p) 1 * ns_per_day.

(** ** Text rendering *)

Section Rendering.
Local Open Scope string_scope.

Definition nl : string := String (ascii_of_nat 10) EmptyString.

(** [str(n)] for a non-negative integer. *)
Definition str_of_N (n : N) : string :=
  NilZero.string_of_uint (N.to_uint n).

Definition str_of_nat (n : nat) : string := str_of_N (N.of_nat n).

Fixpoint zeros (n : nat) : string :=
  match n with
  | O => ""
  | S n' => "0" ++ zeros n'
  end.

(** A non-negative integer on at least [w] digits, as [%0wd] prints it. *)
Definition pad0 (w : nat) (z : Z) : string :=
  let s := str_of_N (Z.to_N z) in
  zeros (w - String.length s) ++ s.

(** [str(Timestamp)]; the missing marker prints as NaT. *)
Definition str_of_timestamp (t : option Z) : string :=
  match t with
  | None => "NaT"
  | Some t =>
      let '(y, m, d) := civil_from_days (t / ns_per_day)%Z in
      let rem := (t mod ns_per_day)%Z in
      let secs := (rem / ns_per_second)%Z in
      let frac := (rem mod ns_per_second)%Z in
      pad0 4 y ++ "-" ++ pad0 2 m ++ "-" ++ pad0 2 d ++ " " ++
      pad0 2 (secs / 3600) ++ ":" ++ pad0 2 (secs / 60 mod 60) ++ ":" ++
      pad0 2 (secs mod 60) ++
      (if (frac =? 0)%Z then ""
       else if (frac mod 1000 =? 0)%Z then "." ++ pad0 6 (frac / 1000)
       else "." ++ pad0 9 frac)
  end.

(** The integer nearest to [num / den], ties to the even one. *)
Definition div_half_even (num den : Z) : Z :=
  let q := (num / den)%Z in
  let r := (num mod den)%Z in
  match (2 * r ?= den)%Z with
  | Lt => q
  | Gt => (q + 1)%Z
  | Eq => if Z.even q then q else (q + 1)%Z
  end.

(** The format specification [.df] applied to a float. *)
Definition format_fixed (d : nat) (x : float) : string :=
  let body (n : Z) :=
    let p := (10 ^ Z.of_nat d)%Z in
    str_of_N (Z.to_N (n / p)) ++
    (match d with
     | O => ""
     | _ => "." ++ pad0 d (n mod p)
     end) in
  match x with
  | S754_nan => "nan"
  | S754_infinity s => if s then "-inf" else "inf"
  | S754_zero s => (if s then "-" else "") ++ body 0%Z
  | S754_finite s m e =>
      let scaled := (Zpos m * 10 ^ Z.of_nat d)%Z in
      let n := match e with
               | Z0 => scaled
               | Zpos _ => (scaled * 2 ^ e)%Z
               | Zneg k => div_half_even scaled (2 ^ Zpos k)
               end in
      (if s then "-" else "") ++ body n
  end.

Definition month_abbr (m : Z) : string :=
  nth (Z.to_nat (m - 1))
    ["Jan"; "Feb"; "Mar"; "Apr"; "May"; "Jun";
     "Jul"; "Aug"; "Sep"; "Oct"; "Nov"; "Dec"] "".

(** [strftime('%b %Y')]. *)
Definition strftime_b_Y (t : Z) : string :=
  month_abbr (month_of t) ++ " " ++ pad0 4 (year_of t).

End Rendering.

(** ** Series operations *)

Definition int64_min : Z := - 2 ^ 63.
Definition int64_max : Z := 2 ^ 63 - 1.

(** [Series.dropna()]: the present values under their labels. *)
Fixpoint dropna {A : Type} (s : Frame (option A)) : Frame A :=
  match s with
  | [] => []
  | (i, Some a) :: s' => (i, a) :: dropna s'
  | (_, None) :: s' => dropna s'
  end.

(** [Series.min()] and [Series.max()] skip missing values and are missing
    themselves when nothing is present. *)
Definition series_min (s : Frame (option Z)) : option Z :=
  match values (dropna s) with
  | [] => None
  | a :: l => Some (fold_left Z.min l a)
  end.

Definition series_max (s : Frame (option Z)) : option Z :=
  match values (dropna s) with
  | [] => None
  | a :: l => Some (fold_left Z.max l a)
  end.

(** Difference of two datetime64[ns] values as a timedelta64[ns]; missing
    if either is missing.  The int64 subtraction is overflow-checked. *)
Definition sub_datetime (a b : option Z) : result (option Z) :=
  match a, b with
  | Some x, Some y =>
      if (int64_min <? x - y) && (x - y <=? int64_max)
      then Ok (Some (x - y))
      else Raise OverflowError
  | _, _ => Ok None
  end.

(** [Series.dt.days] on one timedelta: whole days, rounded down. *)
Definition days (td : option Z) : option Z :=
  option_map (fun d => d / ns_per_day) td.

(** ** Sums and statistics of a float column *)

(** NumPy adds a float64 array up pairwise.  Fewer than eight values are
    added one after the other, starting from [-0.0].  Up to 128 values run
    through eight accumulators, the value at position [i] going to the
    accumulator [i mod 8]; the accumulators are added as a balanced tree and
    the values after the last full group of eight follow one by one.  A
    longer array is cut in two, the first part half as long rounded down to
    a multiple of eight, and the sums of the two parts are added. *)
Definition neg_zero : float := S754_zero true.

Fixpoint add_lanes (r c : list float) : list float :=
  match r, c with
  | x :: r', y :: c' => Float64.add x y :: add_lanes r' c'
  | _, _ => r
  end.

(** [k] groups of eight added to the accumulators [r]; what was not
    consumed comes back with them. *)
Fixpoint lanes (k : nat) (r rest : list float) : list float * list float :=
  match k with
  | O => (r, rest)
  | S k' => lanes k' (add_lanes r (firstn 8 rest)) (skipn 8 rest)
  end.

Definition lane (r : list float) (j : nat) : float := nth j r Float64.zero.

(** The sum of a block of 8 to 128 values. *)
Definition block_sum (a : list float) : float :=
  let n := List.length a in
  let '(r, rest) := lanes (n / 8 - 1) (firstn 8 a) (skipn 8 a) in
  let res :=
    Float64.add
      (Float64.add (Float64.add (lane r 0) (lane r 1))
                   (Float64.add (lane r 2) (lane r 3)))
      (Float64.add (Float64.add (lane r 4) (lane r 5))
                   (Float64.add (lane r 6) (lane r 7))) in
  fold_left Float64.add rest res.

(** The recursion halves the array, so a depth of its length is never
    used up ([pairwise_sum_from_depth]). *)
Fixpoint pairwise_sum_from (depth : nat) (a : list float) : float :=
  let n := List.length a in
  if (n <? 8)%nat then fold_left Float64.add a neg_zero
  else if (n <=? 128)%nat then block_sum a
  else
    match depth with
    | O => block_sum a
    | S depth' =>
        let n2 := (n / 2 - (n / 2) mod 8)%nat in
        Float64.add (pairwise_sum_from depth' (firstn n2 a))
                    (pairwise_sum_from depth' (skipn n2 a))
    end.

Definition pairwise_sum (a : list float) : float :=
  pairwise_sum_from (List.length a) a.

(** [ndarray.sum()] of a float64 array: the reduction starts from [-0.0],
    and the sum of no value at all is [0.0]. *)
Definition np_sum (a : list float) : float :=
  match a with
  | [] => Float64.zero
  | _ => Float64.add neg_zero (pairwise_sum a)
  end.

(** A float column as the statistics see it: the durations as floats, and
    [0.0] in place of every missing value. *)
Definition filled (s : Frame (option Z)) : list float :=
  map (fun o => match o with
                | Some z => Float64.of_Z z
                | None => Float64.zero
                end) (values s).

(** The number of values present. *)
Definition count (s : Frame (option Z)) : Z :=
  Z.of_nat (List.length (dropna s)).

(** The squared deviations from [avg], with [0.0] at the missing rows. *)
Definition squared_deviations (avg : float) (s : Frame (option Z)) : list float :=
  map (fun o => match o with
                | Some z => let d := Float64.sub avg (Float64.of_Z z) in
                            Float64.mul d d
                | None => Float64.zero
                end) (values s).

(** [Series.mean()]: the sum of the filled column divided by the number of
    values present; undefined when there is none. *)
Definition mean (s : Frame (option Z)) : float :=
  if count s =? 0 then Float64.nan
  else Float64.div (np_sum (filled s)) (Float64.of_Z (count s)).

(** [Series.var()], the sample variance ([ddof = 1]): the squared deviations
    from the mean, summed over the column and divided by one less than the
    number of values present; undefined for fewer than two values. *)
Definition var (s : Frame (option Z)) : float :=
  if count s <=? 1 then Float64.nan
  else
    let avg := Float64.div (np_sum (filled s)) (Float64.of_Z (count s)) in
    Float64.div (np_sum (squared_deviations avg s)) (Float64.of_Z (count s - 1)).

(** [Series.std()]. *)
Definition std (s : Frame (option Z)) : float := Float64.sqrt (var s).

(** The exact sum of integers, and the sum of their magnitudes. *)
Definition Zsum (zs : list Z) : Z := fold_right Z.add 0 zs.
Definition abs_sum (zs : list Z) : Z := fold_right (fun z acc => Z.abs z + acc) 0 zs.

(** Looking a label up in a series. *)
Fixpoint loc {A : Type} (i : nat) (s : Frame A) : option A :=
  match s with
  | [] => None
  | (j, a) :: s' => if Nat.eqb i j then Some a else loc i s'
  end.

Definition nat_list_eqb (l1 l2 : list nat) : bool :=
  if list_eq_dec Nat.eq_dec l1 l2 then true else false.

Fixpoint unique (l : list nat) : bool :=
  match l with
  | [] => true
  | i :: l' => negb (existsb (Nat.eqb i) l') && unique l'
  end.

(** The values a series contributes when it is assigned as a column of a
    frame with index [idx]: taken as they are when the indexes agree,
    otherwise realigned on [idx], with the missing marker where the series
    has no such label; realigning a series with repeated labels raises. *)
Definition reindex_for_setitem {A : Type}
    (value : Frame A) (idx : list nat) : result (list (option A)) :=
  match idx with
  | [] => Ok (map Some (values value))
  | _ =>
      if nat_list_eqb (index value) idx then Ok (map Some (values value))
      else if unique (index value)
           then Ok (map (fun i => loc i value) idx)
           else Raise ValueError
  end.

(** ** Monthly aggregation *)

(** One more record in the bucket of [k]; buckets stay in key order. *)
Fixpoint count_into (k : Z) (acc : list (Z * Z)) : list (Z * Z) :=
  match acc with
  | [] => [(k, 1)]
  | (k', n) :: rest =>
      if k <? k' then (k, 1) :: acc
      else if k =? k' then (k', n + 1) :: rest
      else (k', n) :: count_into k rest
  end.

(** [groupby(key).size()]: one entry per present key, in ascending key
    order, with the number of records carrying it; missing keys are left
    out. *)
Definition groupby_size (keys : list (option Z)) : list (Z * Z) :=
  fold_left (fun acc k => match k with
                          | Some k => count_into k acc
                          | None => acc
                          end) keys [].

(** How many of the keys are [k]. *)
Definition occurrences (k : Z) (keys : list (option Z)) : Z :=
  Z.of_nat (List.length (filter (fun o => match o with
                                          | Some k' => k' =? k
                                          | None => false
                                          end) keys)).

(** The number recorded for key [k] in a grouped table. *)
Fixpoint bucket (k : Z) (b : list (Z * Z)) : Z :=
  match b with
  | [] => 0
  | (k', n) :: rest => (if k =? k' then n else 0) + bucket k rest
  end.

(** [Series.iloc[-1]]. *)
Definition iloc_last {A : Type} (l : list A) : result A :=
  match rev l with
  | [] => Raise IndexError
  | a :: _ => Ok a
  end.

(** Storing a Python int into an int64 array. *)
Definition to_int64 (z : Z) : result Z :=
  if (int64_min <=? z) && (z <=? int64_max) then Ok z else Raise OverflowError.

(** [data[0, -1] = v]. *)
Definition set_last (data : list Z) (v : Z) : list Z :=
  match rev data with
  | [] => []
  | _ :: front => rev front ++ [v]
  end.

(** ** The script *)

(** What a run shows: console text and the two figures. *)
Inductive event : Type :=
| Print (text : string)
| Histplot (x : list (option Z)) (bins : nat)
| Heatmap (data : list Z) (xticklabels : list string)
| Show.

(** A run threads the events shown so far and may stop on an exception;
    what was shown before the exception stays shown. *)
Definition Run (A : Type) : Type := list event -> list event * result A.

Definition ret {A : Type} (a : A) : Run A := fun log => (log, Ok a).

Definition lift {A : Type} (r : result A) : Run A := fun log => (log, r).

Definition emit (e : event) : Run unit := fun log => (log ++ [e], Ok tt).

Definition print (text : string) : Run unit := emit (Print text).

Definition bind_run {A B : Type} (m : Run A) (k : A -> Run B) : Run B :=
  fun log =>
    match m log with
    | (log', Ok a) => k a log'
    | (log', Raise e) => (log', Raise e)
    end.

Declare Scope run_scope.
Delimit Scope run_scope with run.
Notation "x <- m ;; k" := (bind_run m (fun x => k))
  (at level 61, m at next level, right associativity) : run_scope.
Notation "m ;; k" := (bind_run m (fun _ => k))
  (at level 61, right associativity) : run_scope.

(** [(df['canceled_date'] - df['created_date']).dt.days] *)
Definition subscription_duration (df : Frame Row) : result (Frame (option Z)) :=
  mapM (fun ir : nat * Row =>
          (td <- sub_datetime (canceled_date (snd ir)) (created_date (snd ir)) ;;
           Ok (fst ir, days td))%result) df.

(** [df[col] = values] for the cancellation column. *)
Fixpoint set_canceled_date (df : Frame Row) (col : list (option Z)) : Frame Row :=
  match df, col with
  | (i, r) :: df', c :: col' =>
      (i, mkRow (created_date r) c (extra r)) :: set_canceled_date df' col'
  | _, _ => []
  end.

(** [df['canceled_date'] = df['canceled_date'].dropna()] *)
Definition reassign_canceled_date (df : Frame Row) : result (Frame Row) :=
  (col <- reindex_for_setitem (dropna (column canceled_date df)) (index df) ;;
   Ok (set_canceled_date df col))%result.

(** [df['canceled_date'].dt.to_period('M')] *)
Definition canceled_month (df : Frame Row) : Frame (option Z) :=
  column (fun r => option_map to_period (canceled_date r)) df.

(** The rows cancelled in the month of ordinal [k], and their number. *)
Definition canceled_in (k : Z) (r : Row) : bool :=
  match canceled_date r with
  | Some t => to_period t =? k
  | None => false
  end.

Definition cancellations_in (k : Z) (df : Frame Row) : Z :=
  Z.of_nat (List.length (filter (fun ir => canceled_in k (snd ir)) df)).

(** The grouped table: month start and number of cancellations, after the
    period column has been turned back into timestamps. *)
Definition cancellations_by_month (df : Frame Row) : list (Z * Z) :=
  map (fun kc => (to_timestamp (fst kc), snd kc))
      (groupby_size (values (canceled_month df))).

(** [30 / 8] *)
Definition september_factor : float :=
  Float64.div (Float64.of_Z 30) (Float64.of_Z 8).

(** [int(n * (30 / 8))] for an int64 [n]. *)
Definition scale_september (n : Z) : result Z :=
  Float64.to_int (Float64.mul (Float64.of_Z n) september_factor).

(** The scaled count as the specification words it: the count times 30/8,
    rounded to the nearest integer. *)
Definition rounded_scaling (n : Z) : Z := div_half_even (30 * n) 8.

(** The row of counts handed to the heatmap. *)
Definition heatmap_data (by_month : list (Z * Z)) : result (list Z) :=
  let data := map snd by_month in
  (last_month <- iloc_last (map fst by_month) ;;
   if month_of last_month =? 9
   then
     n <- iloc_last data ;;
     v <- scale_september n ;;
     v <- to_int64 v ;;
     Ok (set_last data v)
   else Ok data)%result.

Section Main.
Variable parse_datetime : list Cell -> string -> option Z.
Local Open Scope string_scope.

Definition rule : string := nl ++ "------------------------" ++ nl.

Definition main (csv : list RawRow) : Run unit :=
  (let df := load_data csv in
   df <- lift (clean_data parse_datetime df) ;;
   print ("Dataset tiemframe start: " ++
          str_of_timestamp (series_min (column created_date df))) ;;
   print ("Dataset timeframe end: " ++
          str_of_timestamp (series_max (column created_date df))) ;;
   print rule ;;
   print ("Total subscribers: " ++
          str_of_nat (List.length (column canceled_date df))) ;;
   print ("Current subscribers: " ++
          str_of_nat (List.length (dropna (column canceled_date df)))) ;;
   print rule ;;
   duration <- lift (subscription_duration df) ;;
   let avg_duration := mean duration in
   print ("Average subscription duration: " ++
          format_fixed 1 avg_duration ++ " days") ;;
   let duration_variance := var duration in
   let duration_std := std duration in
   print ("Variance of subscription duration: " ++
          format_fixed 2 duration_variance) ;;
   print ("Standard deviation of subscription duration: " ++
          format_fixed 2 duration_std) ;;
   print rule ;;
   df <- lift (reassign_canceled_date df) ;;
   emit (Histplot (values (column canceled_date df)) 30) ;;
   emit Show ;;
   let by_month := cancellations_by_month df in
   data <- lift (heatmap_data by_month) ;;
   emit (Heatmap data (map (fun kc => strftime_b_Y (fst kc)) by_month)) ;;
   emit Show)%run.

(** The lines printed between cleaning and the duration column. *)
Definition counts_report (df : Frame Row) : list event :=
  [ Print ("Dataset tiemframe start: " ++
           str_of_timestamp (series_min (column created_date df)));
    Print ("Dataset timeframe end: " ++
           str_of_timestamp (series_max (column created_date df)));
    Print rule;
    Print ("Total subscribers: " ++
           str_of_nat (List.length (column canceled_date df)));
    Print ("Current subscribers: " ++
           str_of_nat (List.length (dropna (column canceled_date df))));
    Print rule ].

(** The lines printed for the duration column. *)
Definition duration_report (duration : Frame (option Z)) : list event :=
  [ Print ("Average subscription duration: " ++
           format_fixed 1 (mean duration) ++ " days");
    Print ("Variance of subscription duration: " ++
           format_fixed 2 (var duration));
    Print ("Standard deviation of subscription duration: " ++
           format_fixed 2 (std duration));
    Print rule ].

(** Running the script from an empty console. *)
Definition run_main (csv : list RawRow) : list event * result unit :=
  main csv [].

End Main.

(** ** A reference parser and fixtures *)

(** The reference parser reads dates written [YYYY-MM-DD], and dates
    written [M/D/YYYY] with or without leading zeros; any other text is not
    a date. *)
Definition digit (c : ascii) : option Z :=
  let n := nat_of_ascii c in
  if (48 <=? n)%nat && (n <=? 57)%nat then Some (Z.of_nat (n - 48)) else None.

Definition number (cs : list ascii) : option Z :=
  fold_left (fun acc c => match acc, digit c with
                          | Some a, Some d => Some (10 * a + d)
                          | _, _ => None
                          end) cs (Some 0).

Fixpoint split_on (sep : ascii) (cs cur : list ascii) : list (list ascii) :=
  match cs with
  | [] => [rev cur]
  | c :: cs' =>
      if Ascii.eqb c sep then rev cur :: split_on sep cs' []
      else split_on sep cs' (c :: cur)
  end.

(** Midnight of a calendar date, if there is such a date. *)
Definition timestamp_of_date (y m d : Z) : option Z :=
  let n := days_from_civil y m d in
  let '(y', m', d') := civil_from_days n in
  if (1 <=? m) && (m <=? 12) && (y' =? y) && (m' =? m) && (d' =? d)
  then Some (n * ns_per_day)
  else None.

Definition width (lo hi : nat) (cs : list ascii) : bool :=
  (lo <=? List.length cs)%nat && (List.length cs <=? hi)%nat.

Definition parse_date (s : string) : option Z :=
  let cs := list_ascii_of_string s in
  match split_on "-"%char cs [], split_on "/"%char cs [] with
  | [y; m; d], [_] =>
      if width 4 4 y && width 2 2 m && width 2 2 d then
        match number y, number m, number d with
        | Some y, Some m, Some d => timestamp_of_date y m d
        | _, _, _ => None
        end
      else None
  | [_], [m; d; y] =>
      if width 4 4 y && width 1 2 m && width 1 2 d then
        match number y, number m, number d with
        | Some y, Some m, Some d => timestamp_of_date y m d
        | _, _, _ => None
        end
      else None
  | _, _ => None
  end.

Definition reference_parser (col : list Cell) (s : string) : option Z :=
  parse_date s.

(** A record of the file: start date, cancellation date (empty when the
    subscription is still running) and no further column. *)
Definition record (created canceled : string) : RawRow :=
  mkRawRow (Str created)
           (if String.eqb canceled "" then NA else Str canceled) [].

(** Two records that differ only in how an unreadable cancellation date is
    written. *)
Definition twice_unreadable : list RawRow :=
  [ record "2023-01-01" "unknown"; record "2023-01-01" "pending" ]%string.

(** Two records whose start date is the same day written in two ways. *)
Definition same_day_twice : list RawRow :=
  [ record "01/05/2023" "03/01/2023"; record "1/5/2023" "3/1/2023" ]%string.

(** The same day written in two ways, the first record given twice. *)
Definition same_day_repeated : list RawRow :=
  [ record "01/05/2023" "03/01/2023";
    record "1/5/2023" "3/1/2023";
    record "01/05/2023" "03/01/2023" ]%string.

(** Five records, two of them repeated; of the three distinct ones, one is
    still running. *)
Definition five_records : list RawRow :=
  [ record "2023-01-01" "2023-01-11";
    record "2023-01-01" "2023-01-11";
    record "2023-01-05" "";
    record "2023-02-01" "2023-02-21";
    record "2023-01-05" "" ]%string.


(** Records whose cancellation dates are empty or not dates. *)
Definition bad_end : list RawRow :=
  [ record "2023-01-01" "never"; record "2023-01-05" "" ]%string.

(** Three records that ran 10, 20 and 30 days. *)
Definition three_records : list RawRow :=
  [ record "2023-01-01" "2023-01-11";
    record "2023-01-01" "2023-01-21";
    record "2023-01-01" "2023-01-31" ]%string.

(** Records cancelled in August and in September 2023, one still running. *)
Definition september_records : list RawRow :=
  [ record "2023-01-01" "2023-08-11";
    record "2023-02-01" "2023-08-21";
    record "2023-03-01" "2023-09-01";
    record "2023-03-02" "2023-09-05";
    record "2023-03-03" "2023-09-08";
    record "2023-04-01" "" ]%string.

(** Records cancelled in September 2022, January 2023 and September 2023. *)
Definition two_septembers : list RawRow :=
  [ record "2022-09-01" "2023-09-03";
    record "2022-09-01" "2022-09-10";
    record "2022-09-02" "2023-01-15";
    record "2022-09-03" "2022-09-20" ]%string.

(** Records cancelled in January and February 2023, out of order. *)
Definition january_february : list RawRow :=
  [ record "2022-12-01" "2023-02-03";
    record "2022-12-02" "2023-01-10";
    record "2022-12-03" "2023-02-20";
    record "2022-12-04" "";
    record "2022-12-05" "2023-01-31";
    record "2022-12-06" "2023-02-28" ]%string.

(** The fixtures once cleaned with the reference parser. *)
Definition cleaned (csv : list RawRow) : Frame Row :=
  match clean_data reference_parser (load_data csv) with
  | Ok df => df
  | Raise _ => []
  end.

Definition five_records_cleaned : Frame Row :=
  Eval vm_compute in cleaned five_records.

Definition three_records_cleaned : Frame Row :=
  Eval vm_compute in cleaned three_records.

Definition twice_unreadable_cleaned : Frame Row :=
  Eval vm_compute in cleaned twice_unreadable.

Definition same_day_twice_cleaned : Frame Row :=
  Eval vm_compute in cleaned same_day_twice.

Definition same_day_repeated_cleaned : Frame Row :=
  Eval vm_compute in cleaned same_day_repeated.

Definition bad_end_cleaned : Frame Row :=
  Eval vm_compute in cleaned bad_end.

Definition september_records_cleaned : Frame Row :=
  Eval vm_compute in cleaned september_records.

Definition two_septembers_cleaned : Frame Row :=
  Eval vm_compute in cleaned two_septembers.

Definition january_february_cleaned : Frame Row :=
  Eval vm_compute in cleaned january_february.

(** ** Further fixtures *)

(** The sum of the counts of a grouped table. *)
Definition sum_counts (b : list (Z * Z)) : Z :=
  fold_right (fun kc acc => snd kc + acc) 0 b.

(** Three records of which exactly one was cancelled, after 41 days. *)
Definition one_cancellation : list RawRow :=
  [ record "2023-01-01" "";
    record "2023-03-01" "2023-04-11";
    record "2023-05-01" "" ]%string.

(** A record cancelled five centuries after it started. *)
Definition far_apart : list RawRow :=
  [ record "2023-01-01" "2023-01-11";
    record "1700-01-01" "2200-01-01" ]%string.

Definition one_cancellation_cleaned : Frame Row :=
  Eval vm_compute in cleaned one_cancellation.

Definition far_apart_cleaned : Frame Row :=
  Eval vm_compute in cleaned far_apart.

(** * Properties *)

(** ** The result monad *)

Lemma mapM_Ok_Forall2 {A B : Type} (f : A -> result B) (l : list A) (l' : list B) :
  mapM f l = Ok l' <-> Forall2 (fun a b => f a = Ok b) l l'.
Proof.
  revert l'. induction l as [|a l IH]; intros l'; simpl.
  - split; intros H.
    + injection H as <-. constructor.
    + inversion H. reflexivity.
  - destruct (f a) as [b|e] eqn:Hf; simpl.
    + destruct (mapM f l) as [bs|e] eqn:Hm; simpl.
      * split; intros H.
        -- injection H as <-. constructor; [assumption|]. now apply IH.
        -- inversion H as [|a0 b0 l0 l0' Hb Hrest]; subst.
           rewrite Hf in Hb. injection Hb as <-.
           apply IH in Hrest. now injection Hrest as <-.
      * split; intros H; [discriminate|].
        inversion H as [|a0 b0 l0 l0' Hb Hrest]; subst.
        apply IH in Hrest. discriminate.
    + split; intros H; [discriminate|].
      inversion H as [|a0 b0 l0 l0' Hb Hrest]; subst. congruence.
Qed.

Lemma mapM_total {A B : Type} (f : A -> result B) (g : A -> B) (l : list A) :
  (forall a, In a l -> f a = Ok (g a)) -> mapM f l = Ok (map g l).
Proof.
  induction l as [|a l IH]; intros H; simpl; [reflexivity|].
  rewrite (H a (or_introl eq_refl)). simpl.
  rewrite IH by (intros; apply H; now right). reflexivity.
Qed.

(** ** Frames *)

Lemma values_load_data (csv : list RawRow) : values (load_data csv) = csv.
Proof.
  unfold values, load_data.
  assert (G : forall (l : list RawRow) (s : list nat),
             List.length s = List.length l -> map snd (combine s l) = l).
  { induction l as [|a l IH]; intros [|i s] Hlen; simpl in *;
      try reflexivity; try discriminate.
    f_equal. apply IH. congruence. }
  apply G. apply length_seq.
Qed.

Lemma index_load_data (csv : list RawRow) :
  index (load_data csv) = seq 0 (List.length csv).
Proof.
  unfold index, load_data.
  assert (G : forall (l : list RawRow) (s : list nat),
             List.length s = List.length l -> map fst (combine s l) = s).
  { induction l as [|a l IH]; intros [|i s] Hlen; simpl in *;
      try reflexivity; try discriminate.
    f_equal. apply IH. congruence. }
  apply G. apply length_seq.
Qed.

Lemma index_column {A B : Type} (f : A -> B) (df : Frame A) :
  index (column f df) = index df.
Proof.
  unfold index, column. rewrite map_map. reflexivity.
Qed.

Lemma values_column {A B : Type} (f : A -> B) (df : Frame A) :
  values (column f df) = map f (values df).
Proof.
  unfold values, column. now rewrite !map_map.
Qed.

Lemma length_column {A B : Type} (f : A -> B) (df : Frame A) :
  List.length (column f df) = List.length df.
Proof. apply length_map. Qed.

Lemma In_values {A : Type} (a : A) (df : Frame A) :
  In a (values df) <-> exists i, In (i, a) df.
Proof.
  unfold values. rewrite in_map_iff. split.
  - intros [[i b] [E H]]. simpl in E. subst. now exists i.
  - intros [i H]. now exists (i, a).
Qed.

(** ** Duplicate removal *)

Section DropDuplicates.
Context {A : Type} (eq_dec : forall a b : A, {a = b} + {a <> b}).

Lemma drop_duplicates_from_In (seen : list A) (df : Frame A) (i : nat) (r : A) :
  In (i, r) (drop_duplicates_from eq_dec seen df) ->
  In (i, r) df /\ ~ In r seen.
Proof.
  revert seen. induction df as [|[j a] df IH]; intros seen H; simpl in *.
  - contradiction.
  - destruct (in_dec eq_dec a seen) as [Hin|Hnin].
    + apply IH in H. tauto.
    + destruct H as [E|H].
      * injection E as -> ->. tauto.
      * apply IH in H. simpl in H. tauto.
Qed.

Lemma drop_duplicates_from_keeps (seen : list A) (df : Frame A) (r : A) :
  In r (values df) ->
  In r seen \/ In r (values (drop_duplicates_from eq_dec seen df)).
Proof.
  revert seen. induction df as [|[j a] df IH]; intros seen H; simpl in *.
  - contradiction.
  - destruct (in_dec eq_dec a seen) as [Hin|Hnin].
    + destruct H as [<-|H]; [now left | now apply IH].
    + simpl. destruct H as [<-|H]; [tauto|].
      destruct (IH (a :: seen) H) as [[<-|Hs]|Hk]; tauto.
Qed.

Lemma drop_duplicates_from_NoDup (seen : list A) (df : Frame A) :
  NoDup (values (drop_duplicates_from eq_dec seen df)).
Proof.
  revert seen. induction df as [|[j a] df IH]; intros seen; simpl.
  - constructor.
  - destruct (in_dec eq_dec a seen) as [Hin|Hnin]; [apply IH|].
    simpl. constructor; [|apply IH].
    intros Hin. apply In_values in Hin. destruct Hin as [i Hin].
    apply drop_duplicates_from_In in Hin. simpl in Hin. tauto.
Qed.

Lemma drop_duplicates_from_index (seen : list A) (df : Frame A) :
  NoDup (index df) -> NoDup (index (drop_duplicates_from eq_dec seen df)).
Proof.
  revert seen. induction df as [|[j a] df IH]; intros seen H; simpl.
  - constructor.
  - inversion H as [|x l Hj Hrest]; subst.
    destruct (in_dec eq_dec a seen) as [Hin|Hnin]; [now apply IH|].
    simpl. constructor; [|now apply IH].
    intros Hin. apply Hj. unfold index in *. apply in_map_iff in Hin.
    destruct Hin as [[i b] [E Hin]]. simpl in E. subst i.
    apply drop_duplicates_from_In in Hin. apply in_map_iff.
    exists (j, b). tauto.
Qed.

Lemma drop_duplicates_from_fixed (seen : list A) (df : Frame A) :
  NoDup (values df) ->
  (forall r, In r (values df) -> ~ In r seen) ->
  drop_duplicates_from eq_dec seen df = df.
Proof.
  revert seen. induction df as [|[j a] df IH]; intros seen Hnd Hdis; simpl.
  - reflexivity.
  - simpl in Hnd. inversion Hnd as [|x l Ha Hrest]; subst.
    destruct (in_dec eq_dec a seen) as [Hin|Hnin].
    + exfalso. apply (Hdis a); simpl; tauto.
    + f_equal. apply IH; [assumption|].
      intros r Hr [<-|Hs]; [contradiction|].
      apply (Hdis r); simpl; tauto.
Qed.

Lemma drop_duplicates_NoDup (df : Frame A) :
  NoDup (values (drop_duplicates eq_dec df)).
Proof. apply drop_duplicates_from_NoDup. Qed.

Lemma drop_duplicates_In (df : Frame A) (r : A) :
  In r (values (drop_duplicates eq_dec df)) <-> In r (values df).
Proof.
  split; intros H.
  - apply In_values in H. destruct H as [i H].
    apply drop_duplicates_from_In in H. apply In_values. exists i. tauto.
  - destruct (drop_duplicates_from_keeps [] df r H) as [[]|Hk]. exact Hk.
Qed.

Lemma drop_duplicates_fixed (df : Frame A) :
  NoDup (values df) <-> drop_duplicates eq_dec df = df.
Proof.
  split; intros H.
  - apply drop_duplicates_from_fixed; [assumption | intros r _ []].
  - rewrite <- H. apply drop_duplicates_NoDup.
Qed.

End DropDuplicates.

(** ** Date conversion and [clean_data] *)

Section CleaningFacts.
Variable parse : list Cell -> string -> option Z.

Lemma to_datetime_cells (col l : list Cell) :
  mapM (to_datetime_cell parse col) l =
  if existsb (unparsable parse col) l then Raise ValueError
  else Ok (map (to_datetime_coerce_cell parse col) l).
Proof.
  induction l as [|c l IH]; simpl; [reflexivity|].
  rewrite IH. unfold to_datetime_cell, unparsable, to_datetime_coerce_cell.
  destruct c as [|s|t]; simpl.
  - destruct (existsb _ l); reflexivity.
  - destruct (parse col s); simpl; [|reflexivity].
    destruct (existsb _ l); reflexivity.
  - destruct (existsb _ l); reflexivity.
Qed.

Lemma with_dates_parsed (created canceled : list Cell) (df : Frame RawRow) :
  with_dates df
    (map (to_datetime_coerce_cell parse created)
         (values (column raw_created_date df)))
    (map (to_datetime_coerce_cell parse canceled)
         (values (column raw_canceled_date df)))
  = column (parsed parse created canceled) df.
Proof.
  induction df as [|[i r] df IH]; simpl; [reflexivity|].
  f_equal. exact IH.
Qed.

(** [clean_data] either stops on the first column or returns the kept rows,
    each with its dates read. *)
Lemma clean_data_cases (df : Frame RawRow) :
  let kept := drop_duplicates RawRow_eq_dec df in
  let created := values (column raw_created_date kept) in
  let canceled := values (column raw_canceled_date kept) in
  clean_data parse df =
  if existsb (unparsable parse created) created then Raise ValueError
  else Ok (column (parsed parse created canceled) kept).
Proof.
  intros kept created canceled. unfold clean_data, to_datetime.
  fold kept. fold created. rewrite to_datetime_cells.
  destruct (existsb _ created); simpl; [reflexivity|].
  unfold to_datetime_coerce. fold canceled. unfold created at 2.
  unfold canceled at 2. now rewrite with_dates_parsed.
Qed.

Lemma clean_data_index (df : Frame RawRow) (t : Frame Row) :
  clean_data parse df = Ok t ->
  index t = index (drop_duplicates RawRow_eq_dec df).
Proof.
  rewrite clean_data_cases. destruct (existsb _ _); [discriminate|].
  intros H. injection H as <-. apply index_column.
Qed.

Lemma clean_data_load_index (csv : list RawRow) (t : Frame Row) :
  clean_data parse (load_data csv) = Ok t -> NoDup (index t).
Proof.
  intros H. rewrite (clean_data_index _ _ H).
  apply drop_duplicates_from_index. rewrite index_load_data. apply seq_NoDup.
Qed.

Lemma as_raw_injective (a b : Row) : as_raw a = as_raw b -> a = b.
Proof.
  destruct a as [c1 x1 e1], b as [c2 x2 e2]. unfold as_raw. simpl.
  intros H. injection H as Hc Hx He.
  destruct c1, c2, x1, x2; simpl in *; congruence.
Qed.

Lemma parsed_as_raw (created canceled : list Cell) (r : Row) :
  parsed parse created canceled (as_raw r) = r.
Proof.
  destruct r as [[c|] [x|] e]; reflexivity.
Qed.

Lemma unparsable_as_cell (col : list Cell) (l : list (option Z)) :
  existsb (unparsable parse col) (map as_cell l) = false.
Proof.
  induction l as [|[z|] l IH]; simpl; auto.
Qed.

(** Cleaning a frame whose dates are read already only removes duplicates. *)
Lemma clean_data_reload (t : Frame Row) :
  clean_data parse (reload t) = Ok (drop_duplicates Row_eq_dec t).
Proof.
  rewrite clean_data_cases.
  assert (G : forall seen (u : Frame Row),
             drop_duplicates_from RawRow_eq_dec (map as_raw seen) (reload u)
             = reload (drop_duplicates_from Row_eq_dec seen u)).
  { intros seen u. revert seen.
    induction u as [|[i r] u IH]; intros seen; simpl; [reflexivity|].
    destruct (in_dec RawRow_eq_dec (as_raw r) (map as_raw seen)) as [Hin|Hnin];
      destruct (in_dec Row_eq_dec r seen) as [Hin'|Hnin'].
    - apply IH.
    - exfalso. apply Hnin'. apply in_map_iff in Hin.
      destruct Hin as [r' [E Hr']]. apply as_raw_injective in E. now subst.
    - exfalso. apply Hnin. now apply in_map.
    - simpl. f_equal. apply (IH (r :: seen)). }
  unfold drop_duplicates. pose proof (G [] t) as G0. simpl in G0. rewrite G0.
  set (u := drop_duplicates_from Row_eq_dec [] t).
  assert (E : values (column raw_created_date (reload u))
              = map as_cell (map created_date (values u))).
  { unfold reload. rewrite !values_column, !map_map. reflexivity. }
  rewrite E, unparsable_as_cell. f_equal.
  unfold reload, column. rewrite map_map.
  transitivity (map (fun x : nat * Row => x) u); [|apply map_id].
  apply map_ext. intros [i r]. simpl. now rewrite parsed_as_raw.
Qed.

End CleaningFacts.

(** ** The fixtures, cleaned *)

Lemma clean_five_records :
  clean_data reference_parser (load_data five_records) = Ok five_records_cleaned.
Proof. vm_compute. reflexivity. Qed.

Lemma clean_three_records :
  clean_data reference_parser (load_data three_records) = Ok three_records_cleaned.
Proof. vm_compute. reflexivity. Qed.

Lemma clean_twice_unreadable :
  clean_data reference_parser (load_data twice_unreadable)
  = Ok twice_unreadable_cleaned.
Proof. vm_compute. reflexivity. Qed.

Lemma clean_same_day_twice :
  clean_data reference_parser (load_data same_day_twice)
  = Ok same_day_twice_cleaned.
Proof. vm_compute. reflexivity. Qed.

Lemma clean_bad_end :
  clean_data reference_parser (load_data bad_end) = Ok bad_end_cleaned.
Proof. vm_compute. reflexivity. Qed.

Lemma clean_september_records :
  clean_data reference_parser (load_data september_records)
  = Ok september_records_cleaned.
Proof. vm_compute. reflexivity. Qed.

Lemma clean_two_septembers :
  clean_data reference_parser (load_data two_septembers)
  = Ok two_septembers_cleaned.
Proof. vm_compute. reflexivity. Qed.

Lemma clean_january_february :
  clean_data reference_parser (load_data january_february)
  = Ok january_february_cleaned.
Proof. vm_compute. reflexivity. Qed.

Lemma clean_one_cancellation :
  clean_data reference_parser (load_data one_cancellation)
  = Ok one_cancellation_cleaned.
Proof. vm_compute. reflexivity. Qed.

Lemma clean_far_apart :
  clean_data reference_parser (load_data far_apart) = Ok far_apart_cleaned.
Proof. vm_compute. reflexivity. Qed.

Lemma clean_same_day_repeated :
  clean_data reference_parser (load_data same_day_repeated)
  = Ok same_day_repeated_cleaned.
Proof. vm_compute. reflexivity. Qed.

(** ** The run, step by step *)

Section RunFacts.
Variable parse : list Cell -> string -> option Z.

(** The run of [main] unfolded along its four fallible steps; the events
    shown before a failing step are kept. *)
Lemma run_main_steps (csv : list RawRow) :
  run_main parse csv =
  match clean_data parse (load_data csv) with
  | Raise e => ([], Raise e)
  | Ok df =>
      match subscription_duration df with
      | Raise e => (counts_report df, Raise e)
      | Ok duration =>
          let shown := counts_report df ++ duration_report duration in
          match reassign_canceled_date df with
          | Raise e => (shown, Raise e)
          | Ok df' =>
              let plotted :=
                shown ++ [Histplot (values (column canceled_date df')) 30; Show] in
              match heatmap_data (cancellations_by_month df') with
              | Raise e => (plotted, Raise e)
              | Ok data =>
                  (plotted ++
                   [Heatmap data
                      (map (fun kc => strftime_b_Y (fst kc))
                           (cancellations_by_month df'));
                    Show], Ok tt)
              end
          end
      end
  end.
Proof.
  unfold run_main, main, bind_run, lift, print, emit.
  destruct (clean_data parse (load_data csv)) as [df|e]; [|reflexivity].
  simpl. destruct (subscription_duration df) as [duration|e]; [|reflexivity].
  simpl. destruct (reassign_canceled_date df) as [df'|e]; [|reflexivity].
  simpl. destruct (heatmap_data (cancellations_by_month df')) as [data|e];
    reflexivity.
Qed.

(** Whatever happens later, the counts are on the console once cleaning
    has succeeded. *)
Lemma run_main_counts (csv : list RawRow) (df : Frame Row) :
  clean_data parse (load_data csv) = Ok df ->
  exists rest, fst (run_main parse csv) = counts_report df ++ rest.
Proof.
  intros H. rewrite run_main_steps, H.
  destruct (subscription_duration df) as [duration|e].
  - cbv zeta. destruct (reassign_canceled_date df) as [df'|e].
    + destruct (heatmap_data (cancellations_by_month df')) as [data|e];
        simpl; rewrite <- ?app_assoc; eexists; reflexivity.
    + simpl. eexists; reflexivity.
  - exists []. simpl fst. symmetry. apply app_nil_r.
Qed.

End RunFacts.

Lemma length_dropna {A : Type} (f : Row -> option A) (df : Frame Row) :
  List.length (dropna (column f df)) =
  List.length (filter (fun ir => match f (snd ir) with
                                 | Some _ => true
                                 | None => false
                                 end) df).
Proof.
  induction df as [|[i r] df IH]; simpl; [reflexivity|].
  destruct (f r); simpl; congruence.
Qed.

(** ** Subscriber counts *)

(** C1. Once the table is cleaned, the fourth line printed is the total,
    which is the number of rows of the cleaned table, and the fifth line,
    labelled current subscribers, is the number of rows whose
    [canceled_date] is present: the cancelled ones, the rows without a
    cancellation date making up the difference to the total. *)
Theorem subscriber_counts_reported
    (parse : list Cell -> string -> option Z)
    (csv : list RawRow) (df : Frame Row) :
  clean_data parse (load_data csv) = Ok df ->
  let canceled := filter (fun ir => match canceled_date (snd ir) with
                                    | Some _ => true
                                    | None => false
                                    end) df in
  let active := filter (fun ir => match canceled_date (snd ir) with
                                  | Some _ => false
                                  | None => true
                                  end) df in
  nth_error (fst (run_main parse csv)) 3 =
    Some (Print ("Total subscribers: " ++ str_of_nat (List.length df))) /\
  nth_error (fst (run_main parse csv)) 4 =
    Some (Print ("Current subscribers: " ++ str_of_nat (List.length canceled))) /\
  (List.length canceled + List.length active = List.length df)%nat.
Proof.
  intros H canceled active.
  destruct (run_main_counts parse csv df H) as [rest ->].
  unfold counts_report. simpl.
  rewrite length_column, length_dropna. repeat split.
  unfold canceled, active. clear.
  induction df as [|[i r] df IH]; simpl; [reflexivity|].
  destruct (canceled_date r); simpl; lia.
Qed.

Lemma subscriber_counts_reported_witness :
  nth_error (fst (run_main reference_parser five_records)) 3 =
    Some (Print "Total subscribers: 3") /\
  nth_error (fst (run_main reference_parser five_records)) 4 =
    Some (Print "Current subscribers: 2").
Proof.
  destruct (subscriber_counts_reported reference_parser five_records
              five_records_cleaned clean_five_records)
    as [Htotal [Hcurrent _]].
  split; [exact Htotal | exact Hcurrent].
Defined.

(** ** Error handling of the cleaning step *)



(** ** Deduplication and parsing *)

Lemma count_occ_map_twice {A B : Type}
    (eq_dec : forall x y : B, {x = y} + {x <> y})
    (f : A -> B) (l : list A) (a b : A) :
  In a l -> In b l -> a <> b -> f a = f b ->
  (count_occ eq_dec (map f l) (f a) >= 2)%nat.
Proof.
  intros Ha Hb Hab Hf.
  assert (Hone : forall x l', In x l' ->
            (count_occ eq_dec (map f l') (f x) >= 1)%nat).
  { intros x l' Hx. apply (count_occ_In eq_dec). now apply in_map. }
  induction l as [|x l IH]; [contradiction|].
  simpl. destruct (eq_dec (f x) (f a)) as [E|NE].
  - destruct Ha as [->|Ha].
    + destruct Hb as [Hb|Hb]; [contradiction|].
      specialize (Hone b l Hb). rewrite <- Hf in Hone. lia.
    + specialize (Hone a l Ha). lia.
  - destruct Ha as [->|Ha]; [contradiction|].
    destruct Hb as [->|Hb]; [congruence|].
    now apply IH.
Qed.

Lemma clean_data_Ok
    (parse : list Cell -> string -> option Z)
    (df : Frame RawRow) (t : Frame Row) :
  clean_data parse df = Ok t ->
  let kept := drop_duplicates RawRow_eq_dec df in
  t = column (parsed parse (values (column raw_created_date kept))
                           (values (column raw_canceled_date kept))) kept.
Proof.
  intros H kept. pose proof (clean_data_cases parse df) as Hc. cbv zeta in Hc.
  fold kept in Hc. rewrite H in Hc.
  destruct (existsb _ _); [discriminate|]. now injection Hc.
Qed.

(** C5, as stated, fails: two records that differ only in the text of an
    unreadable cancellation date both survive deduplication and read as the
    same row, and cleaning the result again drops one of them. *)
Lemma clean_data_leaves_equal_rows :
  ~ (forall csv t,
       clean_data reference_parser (load_data csv) = Ok t ->
       NoDup (values t) /\ clean_data reference_parser (reload t) = Ok t).
Proof.
  intros H.
  destruct (H twice_unreadable twice_unreadable_cleaned clean_twice_unreadable)
    as [Hnd _].
  unfold twice_unreadable_cleaned in Hnd. simpl in Hnd.
  inversion Hnd as [|x l Hin _]. apply Hin. now left.
Qed.

(** C5, amended.  When cleaning succeeds, the rows kept are the raw rows
    without exact duplicates, first occurrences first, and the cleaned
    table is these rows with their dates read.  If no two different kept
    raw rows read as the same row, the cleaned table has no two identical
    rows and cleaning it again returns it unchanged. *)
Theorem clean_data_removes_raw_duplicates
    (parse : list Cell -> string -> option Z)
    (df : Frame RawRow) (t : Frame Row) :
  clean_data parse df = Ok t ->
  let kept := drop_duplicates RawRow_eq_dec df in
  let created := values (column raw_created_date kept) in
  let canceled := values (column raw_canceled_date kept) in
  NoDup (values kept) /\
  (forall r, In r (values kept) <-> In r (values df)) /\
  t = column (parsed parse created canceled) kept /\
  ((forall r1 r2, In r1 (values kept) -> In r2 (values kept) ->
      parsed parse created canceled r1 = parsed parse created canceled r2 ->
      r1 = r2) ->
   NoDup (values t) /\ clean_data parse (reload t) = Ok t).
Proof.
  intros H kept created canceled.
  pose proof (clean_data_Ok parse df t H) as Ht. cbv zeta in Ht.
  fold kept in Ht. fold created in Ht. fold canceled in Ht.
  split; [apply drop_duplicates_NoDup|].
  split; [intros r; apply drop_duplicates_In|].
  split; [exact Ht|].
  intros Hinj.
  assert (Hnd : NoDup (values t)).
  { rewrite Ht, values_column.
    pose proof (drop_duplicates_NoDup RawRow_eq_dec df) as Hk. fold kept in Hk.
    revert Hinj Hk. generalize (values kept) as l.
    induction l as [|a l IH]; intros Hinj Hk; simpl; [constructor|].
    inversion Hk as [|x l' Ha Hl]; subst. constructor.
    - intros Hin. apply in_map_iff in Hin. destruct Hin as [b [Eb Hb]].
      apply Ha. rewrite (Hinj a b); simpl; auto.
    - apply IH; [|assumption]. intros r1 r2 H1 H2. apply Hinj; now right. }
  split; [exact Hnd|].
  rewrite clean_data_reload. f_equal. now apply drop_duplicates_fixed.
Qed.

Lemma clean_data_removes_raw_duplicates_witness :
  clean_data reference_parser (load_data five_records) = Ok five_records_cleaned /\
  index five_records_cleaned = [0; 2; 3]%nat /\
  NoDup (values five_records_cleaned) /\
  clean_data reference_parser (reload five_records_cleaned)
  = Ok five_records_cleaned.
Proof.
  split; [exact clean_five_records|]. split; [reflexivity|].
  apply (clean_data_removes_raw_duplicates reference_parser
           (load_data five_records) five_records_cleaned clean_five_records).
  intros r1 r2 H1 H2 E. vm_compute in H1, H2.
  destruct H1 as [<-|[<-|[<-|[]]]]; destruct H2 as [<-|[<-|[<-|[]]]];
    try reflexivity; vm_compute in E; discriminate.
Defined.

(** ** Realigning the cancellation column *)

Lemma index_dropna_incl {A : Type} (s : Frame (option A)) (i : nat) :
  In i (index (dropna s)) -> In i (index s).
Proof.
  induction s as [|[j [a|]] s IH]; simpl; tauto.
Qed.

Lemma index_dropna_NoDup {A : Type} (s : Frame (option A)) :
  NoDup (index s) -> NoDup (index (dropna s)).
Proof.
  induction s as [|[j [a|]] s IH]; simpl; intros H.
  - constructor.
  - inversion H; subst. constructor; auto.
    intros Hin. now apply index_dropna_incl in Hin.
  - inversion H; subst. auto.
Qed.

Lemma unique_NoDup (l : list nat) : NoDup l -> unique l = true.
Proof.
  induction 1 as [|i l Hi Hl IH]; simpl; [reflexivity|].
  rewrite IH, andb_true_r. apply negb_true_iff.
  destruct (existsb (Nat.eqb i) l) eqn:E; [|reflexivity].
  apply existsb_exists in E. destruct E as [j [Hj Ej]].
  apply Nat.eqb_eq in Ej. now subst.
Qed.

Lemma loc_absent {A : Type} (i : nat) (s : Frame A) :
  ~ In i (index s) -> loc i s = None.
Proof.
  induction s as [|[j a] s IH]; simpl; intros H; [reflexivity|].
  destruct (Nat.eqb_spec i j) as [->|Hne]; [tauto|]. apply IH. tauto.
Qed.

Lemma loc_dropna {A : Type} (s : Frame (option A)) :
  NoDup (index s) ->
  map (fun i => loc i (dropna s)) (index s) = values s.
Proof.
  induction s as [|[j o] s IH]; simpl; intros H; [reflexivity|].
  inversion H as [|x l Hj Hs]; subst. destruct o as [a|]; simpl.
  - rewrite Nat.eqb_refl. f_equal. rewrite <- (IH Hs).
    apply map_ext_in. intros i Hi.
    destruct (Nat.eqb_spec i j) as [->|Hne]; [contradiction|reflexivity].
  - f_equal; [|now apply IH].
    apply loc_absent. intros Hin. now apply index_dropna_incl in Hin.
Qed.

Lemma length_dropna_le {A : Type} (s : Frame (option A)) :
  (List.length (dropna s) <= List.length s)%nat.
Proof.
  induction s as [|[j [a|]] s IH]; simpl; lia.
Qed.

Lemma dropna_full {A : Type} (s : Frame (option A)) :
  index (dropna s) = index s -> map Some (values (dropna s)) = values s.
Proof.
  induction s as [|[j [a|]] s IH]; simpl; intros H.
  - reflexivity.
  - injection H as H. f_equal. now apply IH.
  - exfalso. pose proof (length_dropna_le s) as Hle.
    apply (f_equal (@List.length nat)) in H. unfold index in H.
    simpl in H. rewrite !length_map in H. lia.
Qed.

Lemma reindex_dropna {A : Type} (s : Frame (option A)) :
  NoDup (index s) ->
  reindex_for_setitem (dropna s) (index s) = Ok (values s).
Proof.
  intros H. unfold reindex_for_setitem.
  destruct (index s) as [|i idx] eqn:E.
  - destruct s; [reflexivity | discriminate].
  - rewrite <- E in H |- *. unfold nat_list_eqb.
    destruct (list_eq_dec Nat.eq_dec (index (dropna s)) (index s)) as [Eq|_].
    + now rewrite dropna_full.
    + rewrite unique_NoDup by now apply index_dropna_NoDup.
      now rewrite loc_dropna.
Qed.

Lemma set_canceled_date_same (df : Frame Row) :
  set_canceled_date df (values (column canceled_date df)) = df.
Proof.
  induction df as [|[i [c x e]] df IH]; simpl; [reflexivity|].
  f_equal. exact IH.
Qed.

Lemma reassign_canceled_date_same (df : Frame Row) :
  NoDup (index df) -> reassign_canceled_date df = Ok df.
Proof.
  intros H. unfold reassign_canceled_date.
  rewrite <- (index_column canceled_date df).
  rewrite reindex_dropna by now rewrite index_column.
  simpl. now rewrite set_canceled_date_same.
Qed.

(** C6.  On a cleaned table, assigning the cancellation column its own
    non-missing part succeeds and changes nothing: the row count, the
    labels and every other column are as before, and so is the
    cancellation column itself, the dropped positions being filled with
    the missing marker again. *)
Theorem reassignment_keeps_rows
    (parse : list Cell -> string -> option Z)
    (csv : list RawRow) (df : Frame Row) :
  clean_data parse (load_data csv) = Ok df ->
  exists df',
    reassign_canceled_date df = Ok df' /\
    List.length df' = List.length df /\
    index df' = index df /\
    column created_date df' = column created_date df /\
    column extra df' = column extra df /\
    df' = df.
Proof.
  intros H. exists df.
  rewrite reassign_canceled_date_same by exact (clean_data_load_index parse csv df H).
  repeat split.
Qed.

Lemma reassignment_keeps_rows_witness :
  List.length five_records_cleaned = 3%nat /\
  reassign_canceled_date five_records_cleaned = Ok five_records_cleaned.
Proof.
  destruct (reassignment_keeps_rows reference_parser five_records
              five_records_cleaned clean_five_records)
    as [df' [Hr [_ [_ [_ [_ E]]]]]].
  split; [reflexivity|]. rewrite E in Hr. exact Hr.
Defined.

(** ** Subscription durations *)

Lemma subscription_duration_in_range (df : Frame Row) :
  (forall i r c t, In (i, r) df ->
     canceled_date r = Some c -> created_date r = Some t ->
     int64_min < c - t <= int64_max) ->
  subscription_duration df =
  Ok (column (fun r => match canceled_date r, created_date r with
                       | Some c, Some t => Some ((c - t) / ns_per_day)
                       | _, _ => None
                       end) df).
Proof.
  intros H. unfold subscription_duration, column. apply mapM_total.
  intros [i r] Hin. simpl. unfold sub_datetime.
  destruct (canceled_date r) as [c|] eqn:Ec;
    destruct (created_date r) as [t|] eqn:Et; try reflexivity.
  specialize (H i r c t Hin Ec Et).
  replace (int64_min <? c - t) with true by (symmetry; apply Z.ltb_lt; lia).
  replace (c - t <=? int64_max) with true by (symmetry; apply Z.leb_le; lia).
  reflexivity.
Qed.

Lemma dropna_column_values {A : Type} (f : Row -> option A) (df : Frame Row) :
  values (dropna (column f df)) =
  flat_map (fun ir => match f (snd ir) with
                      | Some a => [a]
                      | None => []
                      end) df.
Proof.
  induction df as [|[i r] df IH]; simpl; [reflexivity|].
  destruct (f r); simpl; now rewrite IH.
Qed.

(** ** Binary64: conversions and products that are exact *)
Lemma digits2_pos_bounds (p : positive) :
  2 ^ (Zpos (digits2_pos p) - 1) <= Zpos p < 2 ^ Zpos (digits2_pos p).
Proof.
  induction p as [p IH|p IH|]; simpl digits2_pos.
  - rewrite Pos2Z.inj_succ.
    replace (Z.succ (Zpos (digits2_pos p)) - 1) with (Z.succ (Zpos (digits2_pos p) - 1)) by lia.
    rewrite !Z.pow_succ_r by lia. lia.
  - rewrite Pos2Z.inj_succ.
    replace (Z.succ (Zpos (digits2_pos p)) - 1) with (Z.succ (Zpos (digits2_pos p) - 1)) by lia.
    rewrite !Z.pow_succ_r by lia. lia.
  - simpl. lia.
Qed.

Lemma digits2_pos_unique (p : positive) (n : Z) :
  2 ^ (n - 1) <= Zpos p < 2 ^ n -> Zpos (digits2_pos p) = n.
Proof.
  intros H. pose proof (digits2_pos_bounds p) as B.
  set (d := Zpos (digits2_pos p)) in *.
  assert (Hd : 0 < d) by (unfold d; lia).
  assert (Hn : 0 < n).
  { destruct (Z.ltb_spec 0 n); [assumption|].
    exfalso. destruct H as [_ H]. 
    assert (2 ^ n <= 1). { destruct (Z.eq_dec n 0) as [->|]; [simpl; lia|]. rewrite Z.pow_neg_r by lia. lia. }
    lia. }
  destruct (Z.lt_trichotomy d n) as [Hlt|[Heq|Hgt]]; [|assumption|]; exfalso.
  - assert (2 ^ d <= 2 ^ (n - 1)) by (apply Z.pow_le_mono_r; lia). lia.
  - assert (2 ^ n <= 2 ^ (d - 1)) by (apply Z.pow_le_mono_r; lia). lia.
Qed.

Lemma Zpos_iter_xO (q k : positive) :
  Zpos (Pos.iter xO q k) = Zpos q * 2 ^ Zpos k.
Proof.
  revert q. induction k as [|k IH] using Pos.peano_ind; intros q.
  - simpl. lia.
  - rewrite Pos.iter_succ, Pos2Z.inj_succ, Z.pow_succ_r by lia.
    rewrite Pos2Z.inj_xO, IH. lia.
Qed.

Lemma iter_pos_iter {A : Type} (f : A -> A) (p : positive) (x : A) :
  iter_pos f p x = Pos.iter f x p.
Proof.
  revert x. induction p as [p IH|p IH|]; intros x; simpl.
  - rewrite !IH. now rewrite <- !Pos.iter_swap.
  - now rewrite !IH.
  - reflexivity.
Qed.

Lemma shr_exact (q k : positive) :
  iter_pos shr_1 k {| shr_m := Zpos (Pos.iter xO q k); shr_r := false; shr_s := false |}
  = {| shr_m := Zpos q; shr_r := false; shr_s := false |}.
Proof.
  rewrite iter_pos_iter. revert q.
  induction k as [|k IH] using Pos.peano_ind; intros q.
  - reflexivity.
  - rewrite !Pos.iter_succ. rewrite <- Pos.iter_swap. simpl shr_1 at 1.
    apply IH.
Qed.

(** A mantissa of 53 digits followed by [k] zero bits rounds to itself. *)
Lemma binary_round_aux_exact (M q : positive) (k e : Z) :
  Zpos (digits2_pos q) = 53 -> 0 <= k -> Zpos M = Zpos q * 2 ^ k ->
  -1074 <= e <= 971 ->
  binary_round_aux 53 1024 false (Zpos M) (e - k) loc_Exact
  = S754_finite false q e.
Proof.
  intros Hq Hk HM He.
  assert (HdM : Zpos (digits2_pos M) = 53 + k).
  { apply digits2_pos_unique. rewrite HM.
    pose proof (digits2_pos_bounds q) as B. rewrite Hq in B.
    replace (53 + k - 1) with (52 + k) by lia.
    rewrite !Z.pow_add_r by lia.
    assert (0 < 2 ^ k) by (apply Z.pow_pos_nonneg; lia). nia. }
  assert (Hfexp : forall x, -1074 <= x -> fexp 53 1024 (53 + x) = x).
  { intros x Hx. unfold fexp, emin. lia. }
  unfold binary_round_aux.
  assert (E1 : shr_fexp 53 1024 (Zpos M) (e - k) loc_Exact
               = ({| shr_m := Zpos q; shr_r := false; shr_s := false |}, e)).
  { unfold shr_fexp. simpl Zdigits2. rewrite HdM.
    replace (53 + k + (e - k)) with (53 + e) by lia.
    rewrite Hfexp by lia. replace (e - (e - k)) with k by lia.
    simpl shr_record_of_loc. unfold shr.
    destruct k as [|k'|k'].
    - replace (e - 0) with e by lia. f_equal. f_equal.
      rewrite Z.pow_0_r in HM. lia.
    - assert (M = Pos.iter xO q k').
      { apply Pos2Z.inj. rewrite Zpos_iter_xO. exact HM. }
      subst M. rewrite shr_exact. f_equal. lia.
    - lia. }
  rewrite E1. simpl shr_m. simpl loc_of_shr_record. simpl round_nearest_even.
  assert (E2 : shr_fexp 53 1024 (Zpos q) e loc_Exact
               = ({| shr_m := Zpos q; shr_r := false; shr_s := false |}, e)).
  { unfold shr_fexp. simpl Zdigits2. rewrite Hq. rewrite Hfexp by lia.
    replace (e - e) with 0 by lia. reflexivity. }
  rewrite E2. simpl shr_m.
  replace (e <=? 1024 - 53) with true by (symmetry; apply Z.leb_le; lia).
  reflexivity.
Qed.

Lemma digits2_pos_le (p : positive) (n : Z) :
  Zpos p < 2 ^ n -> Zpos (digits2_pos p) <= n.
Proof.
  intros H. pose proof (digits2_pos_bounds p) as B.
  destruct (Z.leb_spec (Zpos (digits2_pos p)) n) as [|Hgt]; [assumption|].
  exfalso.
  assert (0 <= n).
  { destruct (Z.leb_spec 0 n); [assumption|].
    rewrite Z.pow_neg_r in H by lia. lia. }
  assert (2 ^ n <= 2 ^ (Zpos (digits2_pos p) - 1))
    by (apply Z.pow_le_mono_r; lia).
  lia.
Qed.

(** A positive integer below [2^53] converts without rounding. *)
Lemma of_Z_pos (p : positive) :
  Zpos p < 2 ^ 53 ->
  exists m,
    Float64.of_Z (Zpos p) = S754_finite false m (Zpos (digits2_pos p) - 53) /\
    Zpos m = Zpos p * 2 ^ (53 - Zpos (digits2_pos p)) /\
    Zpos (digits2_pos m) = 53.
Proof.
  intros Hp. pose proof (digits2_pos_le p 53 Hp) as Hd.
  pose proof (digits2_pos_bounds p) as B.
  set (d := Zpos (digits2_pos p)) in *.
  assert (Hd0 : 0 < d) by (unfold d; lia).
  unfold Float64.of_Z, Float64.prec, Float64.emax, binary_normalize, binary_round.
  fold d. replace (fexp 53 1024 (d + 0)) with (d - 53)
    by (unfold fexp, emin; lia).
  unfold shl_align. replace (d - 53 - 0) with (d - 53) by lia.
  destruct (d - 53) as [|k|k] eqn:Ek.
  - exists p. assert (d = 53) by lia.
    split; [|split].
    + change 0 with (0 - 0) at 1.
      apply binary_round_aux_exact; try fold d; lia.
    + replace (53 - d) with 0 by lia. lia.
    + fold d. lia.
  - lia.
  - exists (Pos.iter xO p k).
    assert (Hk : Zpos k = 53 - d) by lia.
    assert (Hm : Zpos (Pos.iter xO p k) = Zpos p * 2 ^ (53 - d)).
    { rewrite Zpos_iter_xO. now rewrite Hk. }
    assert (Hdm : Zpos (digits2_pos (Pos.iter xO p k)) = 53).
    { apply digits2_pos_unique. rewrite Hm.
      assert (0 < 2 ^ (53 - d)) by (apply Z.pow_pos_nonneg; lia).
      replace (2 ^ (53 - 1)) with (2 ^ (d - 1) * 2 ^ (53 - d))
        by (rewrite <- Z.pow_add_r by lia; f_equal; lia).
      replace (2 ^ 53) with (2 ^ d * 2 ^ (53 - d))
        by (rewrite <- Z.pow_add_r by lia; f_equal; lia).
      nia. }
    split; [|split; assumption].
    replace (Zneg k) with (Zneg k - 0) at 1 by lia.
    apply binary_round_aux_exact; try lia.
Qed.

Lemma september_factor_value :
  september_factor = S754_finite false 8444249301319680 (-51).
Proof. vm_compute. reflexivity. Qed.

(** Scaling a count by 30/8 in binary64 and truncating is exact integer
    arithmetic as long as fifteen times the count fits the mantissa. *)
Lemma scale_september_exact (n : Z) :
  0 <= n < 2 ^ 49 -> scale_september n = Ok (30 * n / 8).
Proof.
  intros Hn. destruct n as [|p|p]; [reflexivity| |lia].
  unfold scale_september. rewrite september_factor_value.
  assert (Hp : Zpos p < 2 ^ 53).
  { assert (2 ^ 49 < 2 ^ 53) by (apply Z.pow_lt_mono_r; lia). lia. }
  destruct (of_Z_pos p Hp) as [m [Hof [Hm Hdm]]]. rewrite Hof.
  pose proof (digits2_pos_bounds p) as Bp.
  pose proof (digits2_pos_bounds (15 * p)) as Bq.
  set (d := Zpos (digits2_pos p)) in *.
  set (D := Zpos (digits2_pos (15 * p))) in *.
  assert (Hd0 : 0 < d) by (unfold d; lia).
  assert (HD : D <= 53).
  { apply digits2_pos_le. rewrite Pos2Z.inj_mul.
    change (2 ^ 53) with (16 * 2 ^ 49). lia. }
  assert (HdD : d + 2 < D).
  { destruct (Z.ltb_spec (d + 2) D) as [|Hle]; [assumption|]. exfalso.
    assert (2 ^ D <= 2 ^ (d + 2)) by (apply Z.pow_le_mono_r; unfold D; lia).
    replace (d + 2) with ((d - 1) + 3) in H by lia.
    rewrite Z.pow_add_r in H by lia. change (2 ^ 3) with 8 in H.
    rewrite Pos2Z.inj_mul in Bq. lia. }
  assert (Hpow : 0 < 2 ^ (53 - D)) by (apply Z.pow_pos_nonneg; lia).
  set (q := Z.to_pos (Zpos (15 * p) * 2 ^ (53 - D))).
  assert (Hq : Zpos q = Zpos (15 * p) * 2 ^ (53 - D)).
  { unfold q. rewrite Z2Pos.id; lia. }
  assert (Hdq : Zpos (digits2_pos q) = 53).
  { apply digits2_pos_unique. rewrite Hq.
    replace (2 ^ (53 - 1)) with (2 ^ (D - 1) * 2 ^ (53 - D))
      by (rewrite <- Z.pow_add_r by (unfold D; lia); f_equal; lia).
    replace (2 ^ 53) with (2 ^ D * 2 ^ (53 - D))
      by (rewrite <- Z.pow_add_r by (unfold D; lia); f_equal; lia).
    nia. }
  unfold Float64.mul, Float64.prec, Float64.emax, SFmul. simpl xorb.
  replace (d - 53 + -51) with ((D - 55) - (49 + D - d)) by lia.
  rewrite (binary_round_aux_exact _ q (49 + D - d) (D - 55)); try lia.
  - unfold Float64.to_int.
    destruct (D - 55) as [|k|k] eqn:Ek; try lia.
    f_equal. rewrite Hq.
    assert (Ek' : Zpos k = 2 + (53 - D)) by lia. rewrite Ek'.
    rewrite Z.pow_add_r by lia. change (2 ^ 2) with 4.
    rewrite Z.div_mul_cancel_r by lia.
    rewrite Pos2Z.inj_mul.
    replace (30 * Zpos p) with (2 * (15 * Zpos p)) by lia.
    change 8 with (2 * 4). rewrite Z.div_mul_cancel_l by lia. reflexivity.
  - rewrite Pos2Z.inj_mul, Hm, Hq, Pos2Z.inj_mul.
    change (Zpos 8444249301319680) with (15 * 2 ^ 49).
    replace (49 + D - d) with ((53 - d) + 49 - (53 - D)) by lia.
    assert (E : 2 ^ (53 - d + 49) = 2 ^ (53 - D) * 2 ^ (53 - d + 49 - (53 - D))).
    { rewrite <- Z.pow_add_r by lia. f_equal. lia. }
    rewrite Z.pow_add_r in E by lia. nia.
Qed.
(** The same for either sign. *)
Lemma binary_round_aux_exact_signed (s : bool) (M q : positive) (k e : Z) :
  Zpos (digits2_pos q) = 53 -> 0 <= k -> Zpos M = Zpos q * 2 ^ k ->
  -1074 <= e <= 971 ->
  binary_round_aux 53 1024 s (Zpos M) (e - k) loc_Exact
  = S754_finite s q e.
Proof.
  intros Hq Hk HM He.
  assert (HdM : Zpos (digits2_pos M) = 53 + k).
  { apply digits2_pos_unique. rewrite HM.
    pose proof (digits2_pos_bounds q) as B. rewrite Hq in B.
    replace (53 + k - 1) with (52 + k) by lia.
    rewrite !Z.pow_add_r by lia.
    assert (0 < 2 ^ k) by (apply Z.pow_pos_nonneg; lia). nia. }
  assert (Hfexp : forall x, -1074 <= x -> fexp 53 1024 (53 + x) = x).
  { intros x Hx. unfold fexp, emin. lia. }
  unfold binary_round_aux.
  assert (E1 : shr_fexp 53 1024 (Zpos M) (e - k) loc_Exact
               = ({| shr_m := Zpos q; shr_r := false; shr_s := false |}, e)).
  { unfold shr_fexp. simpl Zdigits2. rewrite HdM.
    replace (53 + k + (e - k)) with (53 + e) by lia.
    rewrite Hfexp by lia. replace (e - (e - k)) with k by lia.
    simpl shr_record_of_loc. unfold shr.
    destruct k as [|k'|k'].
    - replace (e - 0) with e by lia. f_equal. f_equal.
      rewrite Z.pow_0_r in HM. lia.
    - assert (M = Pos.iter xO q k').
      { apply Pos2Z.inj. rewrite Zpos_iter_xO. exact HM. }
      subst M. rewrite shr_exact. f_equal. lia.
    - lia. }
  rewrite E1. simpl shr_m. simpl loc_of_shr_record. simpl round_nearest_even.
  assert (E2 : shr_fexp 53 1024 (Zpos q) e loc_Exact
               = ({| shr_m := Zpos q; shr_r := false; shr_s := false |}, e)).
  { unfold shr_fexp. simpl Zdigits2. rewrite Hq. rewrite Hfexp by lia.
    replace (e - e) with 0 by lia. reflexivity. }
  rewrite E2. simpl shr_m.
  replace (e <=? 1024 - 53) with true by (symmetry; apply Z.leb_le; lia).
  reflexivity.
Qed.

Lemma digits2_pos_mul_pow2 (p P : positive) (k : Z) :
  0 <= k -> Zpos P = Zpos p * 2 ^ k ->
  Zpos (digits2_pos P) = Zpos (digits2_pos p) + k.
Proof.
  intros Hk HP. apply digits2_pos_unique. rewrite HP.
  pose proof (digits2_pos_bounds p) as B.
  set (d := Zpos (digits2_pos p)) in *.
  assert (0 < d) by (unfold d; lia).
  replace (d + k - 1) with (d - 1 + k) by lia.
  rewrite !Z.pow_add_r by lia.
  assert (0 < 2 ^ k) by (apply Z.pow_pos_nonneg; lia). nia.
Qed.

(** An integer below [2^53], given with [k] more zero bits and the exponent
    [-k], rounds to the integer itself. *)
Lemma binary_round_int (s : bool) (p P : positive) (k : Z) :
  Zpos p < 2 ^ 53 -> 0 <= k -> Zpos P = Zpos p * 2 ^ k ->
  exists q,
    binary_round 53 1024 s P (- k) =
      S754_finite s q (Zpos (digits2_pos p) - 53) /\
    Zpos q = Zpos p * 2 ^ (53 - Zpos (digits2_pos p)) /\
    Zpos (digits2_pos q) = 53.
Proof.
  intros Hp Hk HP. pose proof (digits2_pos_le p 53 Hp) as Hd.
  pose proof (digits2_pos_mul_pow2 p P k Hk HP) as HdP.
  set (d := Zpos (digits2_pos p)) in *.
  assert (Hd0 : 0 < d) by (unfold d; lia).
  assert (Hq : exists q, Zpos q = Zpos p * 2 ^ (53 - d)).
  { exists (Z.to_pos (Zpos p * 2 ^ (53 - d))). rewrite Z2Pos.id; [reflexivity|].
    assert (0 < 2 ^ (53 - d)) by (apply Z.pow_pos_nonneg; lia). nia. }
  destruct Hq as [q Hq]. exists q.
  assert (Hdq : Zpos (digits2_pos q) = 53).
  { rewrite (digits2_pos_mul_pow2 p q (53 - d)); try fold d; lia. }
  split; [|split; assumption].
  unfold binary_round. rewrite HdP.
  replace (fexp 53 1024 (d + k + - k)) with (d - 53)
    by (unfold fexp, emin; lia).
  unfold shl_align.
  destruct (d - 53 - - k) as [|j|j] eqn:Ej.
  - replace (- k) with (d - 53 - (k - (53 - d))) by lia.
    apply binary_round_aux_exact_signed; try lia.
    rewrite HP, Hq. replace k with (53 - d) at 1 by lia.
    replace (k - (53 - d)) with 0 by lia. lia.
  - replace (- k) with (d - 53 - (k - (53 - d))) by lia.
    apply binary_round_aux_exact_signed; try lia.
    rewrite HP, Hq. rewrite <- Z.mul_assoc, <- Z.pow_add_r by lia.
    f_equal. f_equal. lia.
  - replace (d - 53) with (d - 53 - 0) at 1 by lia.
    apply binary_round_aux_exact_signed; try lia.
    rewrite Z.pow_0_r, Z.mul_1_r. unfold shift_pos.
    rewrite Zpos_iter_xO, HP, Hq.
    rewrite <- Z.mul_assoc, <- Z.pow_add_r by lia.
    f_equal. f_equal. lia.
Qed.

(** A nonzero integer of magnitude below [2^53] converts without rounding. *)
Lemma of_Z_finite (z : Z) :
  z <> 0 -> Z.abs z < 2 ^ 53 ->
  exists m e,
    Float64.of_Z z = S754_finite (z <? 0) m e /\
    Zpos m = Z.abs z * 2 ^ (- e) /\
    Zpos (digits2_pos m) = 53 /\ -52 <= e <= 0.
Proof.
  intros Hz Hb.
  unfold Float64.of_Z, Float64.prec, Float64.emax, binary_normalize.
  destruct z as [|p|p]; [congruence| |].
  - destruct (binary_round_int false p p 0) as [q [E [Hq Hdq]]];
      [cbn [Z.abs] in Hb; lia | lia | lia |].
    pose proof (digits2_pos_le p 53) as Hd.
    pose proof (digits2_pos_bounds p) as B.
    exists q, (Zpos (digits2_pos p) - 53).
    split; [exact E|]. split; [|split; [exact Hdq | cbn [Z.abs] in Hb; lia]].
    rewrite Hq. cbn [Z.abs]. f_equal. f_equal. lia.
  - destruct (binary_round_int true p p 0) as [q [E [Hq Hdq]]];
      [cbn [Z.abs] in Hb; lia | lia | lia |].
    pose proof (digits2_pos_le p 53) as Hd.
    pose proof (digits2_pos_bounds p) as B.
    exists q, (Zpos (digits2_pos p) - 53).
    split; [exact E|]. split; [|split; [exact Hdq | cbn [Z.abs] in Hb; lia]].
    rewrite Hq. cbn [Z.abs]. f_equal. f_equal. lia.
Qed.

Lemma shl_align_value (m : positive) (e e' : Z) :
  e' <= e -> Zpos (fst (shl_align m e e')) = Zpos m * 2 ^ (e - e').
Proof.
  intros H. unfold shl_align.
  destruct (e' - e) as [|j|j] eqn:Ej; cbn [fst].
  - replace (e - e') with 0 by lia. lia.
  - lia.
  - unfold shift_pos. rewrite Zpos_iter_xO. f_equal. f_equal. lia.
Qed.

(** Adding two integers whose magnitudes add up to less than [2^53] is
    exact. *)
Lemma add_of_Z (a b : Z) :
  Z.abs a + Z.abs b < 2 ^ 53 ->
  Float64.add (Float64.of_Z a) (Float64.of_Z b) = Float64.of_Z (a + b).
Proof.
  intros Hb.
  destruct (Z.eq_dec a 0) as [-> | Ha].
  { rewrite Z.add_0_l. change (Float64.of_Z 0) with (S754_zero false).
    destruct (Z.eq_dec b 0) as [-> | Hb0]; [reflexivity|].
    destruct (of_Z_finite b Hb0) as [m [e [-> _]]]; [lia | reflexivity]. }
  destruct (Z.eq_dec b 0) as [-> | Hb0].
  { rewrite Z.add_0_r. change (Float64.of_Z 0) with (S754_zero false).
    destruct (of_Z_finite a Ha) as [m [e [-> _]]]; [lia | reflexivity]. }
  destruct (of_Z_finite a Ha) as [ma [ea [Ea [Hma [_ Hea]]]]]; [lia|].
  destruct (of_Z_finite b Hb0) as [mb [eb [Eb [Hmb [_ Heb]]]]]; [lia|].
  rewrite Ea, Eb. unfold Float64.add, Float64.prec, Float64.emax, SFadd.
  set (ez := Z.min ea eb).
  assert (Hez : ez <= ea /\ ez <= eb /\ -52 <= ez <= 0) by (unfold ez; lia).
  assert (Va : cond_Zopp (a <? 0) (Zpos (fst (shl_align ma ea ez))) = a * 2 ^ (- ez)).
  { rewrite shl_align_value by lia. rewrite Hma.
    rewrite <- Z.mul_assoc, <- Z.pow_add_r by lia.
    replace (- ea + (ea - ez)) with (- ez) by lia.
    destruct (Z.ltb_spec a 0); cbn [cond_Zopp]; lia. }
  assert (Vb : cond_Zopp (b <? 0) (Zpos (fst (shl_align mb eb ez))) = b * 2 ^ (- ez)).
  { rewrite shl_align_value by lia. rewrite Hmb.
    rewrite <- Z.mul_assoc, <- Z.pow_add_r by lia.
    replace (- eb + (eb - ez)) with (- ez) by lia.
    destruct (Z.ltb_spec b 0); cbn [cond_Zopp]; lia. }
  rewrite Va, Vb. rewrite <- Z.mul_add_distr_r.
  set (k := - ez). replace ez with (- k) by (unfold k; lia).
  assert (Hk : 0 <= k) by (unfold k; lia).
  assert (H2k : 0 < 2 ^ k) by (apply Z.pow_pos_nonneg; lia).
  unfold Float64.of_Z, Float64.prec, Float64.emax, binary_normalize.
  destruct (a + b) as [|p|p] eqn:Es.
  - reflexivity.
  - destruct (Z.pos p * 2 ^ k) as [|P|P] eqn:EP; try lia.
    destruct (binary_round_int false p P k) as [q [-> [Hq _]]]; try lia.
    destruct (binary_round_int false p p 0) as [q' [E' [Hq' _]]]; try lia.
    change (- 0) with 0 in E'. rewrite E'. f_equal. lia.
  - destruct (Z.neg p * 2 ^ k) as [|P|P] eqn:EP; try lia.
    destruct (binary_round_int true p P k) as [q [-> [Hq _]]]; try lia.
    destruct (binary_round_int true p p 0) as [q' [E' [Hq' _]]]; try lia.
    change (- 0) with 0 in E'. rewrite E'. f_equal. lia.
Qed.
(** ** Exact sums *)

Lemma add_neg_zero_l (x : float) : Float64.add neg_zero x = x.
Proof. destruct x as [[|]| | |]; reflexivity. Qed.

Lemma Zsum_cons (z : Z) (zs : list Z) : Zsum (z :: zs) = z + Zsum zs.
Proof. reflexivity. Qed.

Lemma abs_sum_cons (z : Z) (zs : list Z) :
  abs_sum (z :: zs) = Z.abs z + abs_sum zs.
Proof. reflexivity. Qed.

Lemma abs_sum_nonneg (zs : list Z) : 0 <= abs_sum zs.
Proof.
  induction zs as [|z zs IH]; [reflexivity|]. rewrite abs_sum_cons. lia.
Qed.

Lemma Zsum_abs_le (zs : list Z) : Z.abs (Zsum zs) <= abs_sum zs.
Proof.
  induction zs as [|z zs IH]; [reflexivity|].
  rewrite Zsum_cons, abs_sum_cons. lia.
Qed.

Lemma Zsum_app (l l' : list Z) : Zsum (l ++ l') = Zsum l + Zsum l'.
Proof.
  induction l as [|z l IH]; [reflexivity|].
  rewrite <- app_comm_cons, !Zsum_cons. lia.
Qed.

Lemma abs_sum_app (l l' : list Z) : abs_sum (l ++ l') = abs_sum l + abs_sum l'.
Proof.
  induction l as [|z l IH]; [reflexivity|].
  rewrite <- app_comm_cons, !abs_sum_cons. lia.
Qed.

Lemma Zsum_split (n : nat) (l : list Z) :
  Zsum (firstn n l) + Zsum (skipn n l) = Zsum l.
Proof. rewrite <- Zsum_app. now rewrite firstn_skipn. Qed.

Lemma abs_sum_split (n : nat) (l : list Z) :
  abs_sum (firstn n l) + abs_sum (skipn n l) = abs_sum l.
Proof. rewrite <- abs_sum_app. now rewrite firstn_skipn. Qed.

(** Adding integers one after the other. *)
Lemma fold_add_exact (zs : list Z) (acc : Z) :
  Z.abs acc + abs_sum zs < 2 ^ 53 ->
  fold_left Float64.add (map Float64.of_Z zs) (Float64.of_Z acc)
  = Float64.of_Z (acc + Zsum zs).
Proof.
  revert acc. induction zs as [|z zs IH]; intros acc H.
  - cbn [map fold_left]. f_equal. change (Zsum []) with 0. lia.
  - rewrite abs_sum_cons in H. pose proof (abs_sum_nonneg zs).
    cbn [map fold_left]. rewrite add_of_Z by lia.
    rewrite IH by lia. rewrite Zsum_cons. f_equal. lia.
Qed.

Lemma fold_add_exact_start (zs : list Z) :
  zs <> [] -> abs_sum zs < 2 ^ 53 ->
  fold_left Float64.add (map Float64.of_Z zs) neg_zero = Float64.of_Z (Zsum zs).
Proof.
  destruct zs as [|z zs]; [congruence|]. intros _ H.
  cbn [map fold_left]. rewrite add_neg_zero_l.
  rewrite fold_add_exact; [reflexivity|].
  rewrite abs_sum_cons in H. exact H.
Qed.

(** The eight accumulators. *)
Lemma add_lanes_exact (rz cz : list Z) :
  (List.length cz <= List.length rz)%nat ->
  abs_sum rz + abs_sum cz < 2 ^ 53 ->
  exists rz',
    add_lanes (map Float64.of_Z rz) (map Float64.of_Z cz) = map Float64.of_Z rz' /\
    List.length rz' = List.length rz /\
    Zsum rz' = Zsum rz + Zsum cz /\
    abs_sum rz' <= abs_sum rz + abs_sum cz.
Proof.
  revert cz. induction rz as [|x rz IH]; intros cz Hlen H.
  - destruct cz; [|cbn in Hlen; lia]. exists []. cbn. repeat split; lia.
  - destruct cz as [|y cz].
    + exists (x :: rz). cbn [map add_lanes]. repeat split; cbn; lia.
    + rewrite !abs_sum_cons in H.
      pose proof (abs_sum_nonneg rz). pose proof (abs_sum_nonneg cz).
      destruct (IH cz) as [rz' [E [Hl [Hs Ha]]]];
        [cbn [List.length] in Hlen; lia | lia |].
      exists ((x + y) :: rz'). cbn [map add_lanes].
      rewrite add_of_Z by lia. rewrite E.
      split; [reflexivity|]. split; [cbn [List.length]; lia|].
      rewrite !Zsum_cons, !abs_sum_cons. lia.
Qed.

Lemma lanes_exact (k : nat) (rz tz : list Z) :
  List.length rz = 8%nat ->
  abs_sum rz + abs_sum tz < 2 ^ 53 ->
  exists rz' tz',
    lanes k (map Float64.of_Z rz) (map Float64.of_Z tz)
    = (map Float64.of_Z rz', map Float64.of_Z tz') /\
    List.length rz' = 8%nat /\
    Zsum rz' + Zsum tz' = Zsum rz + Zsum tz /\
    abs_sum rz' + abs_sum tz' <= abs_sum rz + abs_sum tz.
Proof.
  revert rz tz. induction k as [|k IH]; intros rz tz Hlen H.
  - exists rz, tz. cbn [lanes]. repeat split; lia.
  - cbn [lanes]. rewrite firstn_map, skipn_map.
    pose proof (Zsum_split 8 tz) as Hs. pose proof (abs_sum_split 8 tz) as Ha.
    pose proof (abs_sum_nonneg (skipn 8 tz)).
    destruct (add_lanes_exact rz (firstn 8 tz)) as [rz1 [E [Hl [Hs1 Ha1]]]].
    { rewrite length_firstn. lia. }
    { lia. }
    rewrite E.
    destruct (IH rz1 (skipn 8 tz)) as [rz' [tz' [E' [Hl' [Hs' Ha']]]]];
      [lia | lia |].
    exists rz', tz'. split; [exact E'|]. split; [exact Hl'|]. lia.
Qed.

Lemma block_sum_exact (zs : list Z) :
  (8 <= List.length zs)%nat -> abs_sum zs < 2 ^ 53 ->
  block_sum (map Float64.of_Z zs) = Float64.of_Z (Zsum zs).
Proof.
  intros Hlen H. unfold block_sum. rewrite length_map.
  rewrite firstn_map, skipn_map.
  pose proof (Zsum_split 8 zs) as Hs. pose proof (abs_sum_split 8 zs) as Ha.
  destruct (lanes_exact (List.length zs / 8 - 1) (firstn 8 zs) (skipn 8 zs))
    as [rz [tz [E [Hl [Hs' Ha']]]]].
  { rewrite length_firstn. lia. }
  { lia. }
  rewrite E.
  destruct rz as [|r0 [|r1 [|r2 [|r3 [|r4 [|r5 [|r6 [|r7 [|]]]]]]]]];
    try discriminate Hl.
  cbn [map lane nth].
  rewrite !Zsum_cons in Hs'. rewrite !abs_sum_cons in Ha'.
  change (Zsum []) with 0 in Hs'. change (abs_sum []) with 0 in Ha'.
  pose proof (abs_sum_nonneg tz).
  rewrite !add_of_Z by lia.
  rewrite fold_add_exact by lia. f_equal. lia.
Qed.

(** The shape of the recursion: how an array of more than 128 values is
    cut. *)
Lemma pairwise_cut (n : nat) :
  (128 < n)%nat ->
  let n2 := (n / 2 - (n / 2) mod 8)%nat in
  (0 < n2 < n)%nat.
Proof.
  intros H n2. unfold n2.
  pose proof (Nat.div_mod_eq n 2) as E1.
  pose proof (Nat.mod_upper_bound n 2 ltac:(lia)) as B1.
  pose proof (Nat.mod_upper_bound (n / 2) 8 ltac:(lia)) as B2.
  lia.
Qed.

Lemma pairwise_sum_from_step (depth : nat) (a : list float) :
  pairwise_sum_from depth a =
  let n := List.length a in
  if (n <? 8)%nat then fold_left Float64.add a neg_zero
  else if (n <=? 128)%nat then block_sum a
  else
    match depth with
    | O => block_sum a
    | S depth' =>
        let n2 := (n / 2 - (n / 2) mod 8)%nat in
        Float64.add (pairwise_sum_from depth' (firstn n2 a))
                    (pairwise_sum_from depth' (skipn n2 a))
    end.
Proof. destruct depth; reflexivity. Qed.

(** Any depth that is at least the length gives the same sum. *)
Lemma pairwise_sum_from_depth (d d' : nat) (a : list float) :
  (List.length a <= d)%nat -> (List.length a <= d')%nat ->
  pairwise_sum_from d a = pairwise_sum_from d' a.
Proof.
  revert d' a. induction d as [|d IH]; intros d' a H H'.
  - destruct a; [|cbn in H; lia]. destruct d'; reflexivity.
  - rewrite (pairwise_sum_from_step (S d)), (pairwise_sum_from_step d').
    cbv zeta.
    destruct (Nat.ltb_spec (List.length a) 8); [reflexivity|].
    destruct (Nat.leb_spec (List.length a) 128); [reflexivity|].
    destruct d' as [|d']; [lia|].
    pose proof (pairwise_cut (List.length a) ltac:(lia)) as Hcut.
    cbv zeta in Hcut.
    set (n2 := (List.length a / 2 - (List.length a / 2) mod 8)%nat) in *.
    f_equal; apply IH; rewrite ?length_firstn, ?length_skipn; lia.
Qed.

(** The sum of a long array is the sum of the sums of its two parts. *)
Lemma pairwise_sum_split (a : list float) :
  (128 < List.length a)%nat ->
  let n2 := (List.length a / 2 - (List.length a / 2) mod 8)%nat in
  pairwise_sum a =
  Float64.add (pairwise_sum (firstn n2 a)) (pairwise_sum (skipn n2 a)).
Proof.
  intros H n2. unfold pairwise_sum at 1.
  rewrite pairwise_sum_from_step. cbv zeta.
  destruct (Nat.ltb_spec (List.length a) 8); [lia|].
  destruct (Nat.leb_spec (List.length a) 128); [lia|].
  pose proof (pairwise_cut (List.length a) H) as Hcut. cbv zeta in Hcut.
  fold n2 in Hcut |- *.
  destruct (List.length a) as [|d] eqn:El; [lia|].
  unfold pairwise_sum.
  f_equal; apply pairwise_sum_from_depth;
    rewrite ?length_firstn, ?length_skipn; lia.
Qed.

Lemma pairwise_sum_from_exact (depth : nat) (zs : list Z) :
  zs <> [] -> abs_sum zs < 2 ^ 53 ->
  pairwise_sum_from depth (map Float64.of_Z zs) = Float64.of_Z (Zsum zs).
Proof.
  revert zs. induction depth as [|depth IH]; intros zs Hne H;
    rewrite pairwise_sum_from_step; cbv zeta; rewrite length_map;
    destruct (Nat.ltb_spec (List.length zs) 8);
    try (now apply fold_add_exact_start);
    destruct (Nat.leb_spec (List.length zs) 128);
    try (apply block_sum_exact; assumption).
  pose proof (pairwise_cut (List.length zs) ltac:(lia)) as Hcut.
  cbv zeta in Hcut.
  set (n2 := (List.length zs / 2 - (List.length zs / 2) mod 8)%nat) in *.
  rewrite firstn_map, skipn_map.
  pose proof (Zsum_split n2 zs) as Hs. pose proof (abs_sum_split n2 zs) as Ha.
  pose proof (abs_sum_nonneg (firstn n2 zs)).
  pose proof (abs_sum_nonneg (skipn n2 zs)).
  pose proof (Zsum_abs_le (firstn n2 zs)).
  pose proof (Zsum_abs_le (skipn n2 zs)).
  rewrite !IH; try lia.
  - rewrite add_of_Z by lia. f_equal. lia.
  - intros E. pose proof (length_skipn n2 zs) as El.
    rewrite E in El. cbn [List.length] in El. lia.
  - intros E. pose proof (length_firstn n2 zs) as El.
    rewrite E in El. cbn [List.length] in El. lia.
Qed.

(** The sum of integers whose magnitudes add up to less than [2^53] is
    exact, however the additions are arranged. *)
Lemma np_sum_exact (zs : list Z) :
  abs_sum zs < 2 ^ 53 ->
  np_sum (map Float64.of_Z zs) = Float64.of_Z (Zsum zs).
Proof.
  intros H. destruct zs as [|z zs]; [reflexivity|].
  unfold np_sum. cbn [map]. rewrite add_neg_zero_l.
  change (Float64.of_Z z :: map Float64.of_Z zs)
    with (map Float64.of_Z (z :: zs)).
  unfold pairwise_sum. now apply pairwise_sum_from_exact.
Qed.

(** A column with [0.0] at its missing rows adds up to the sum of the
    values present. *)
Lemma np_sum_masked (F : Z -> float) (f : Z -> Z) (s : Frame (option Z)) :
  (forall z, In z (values (dropna s)) -> F z = Float64.of_Z (f z)) ->
  abs_sum (map f (values (dropna s))) < 2 ^ 53 ->
  np_sum (map (fun o => match o with
                        | Some z => F z
                        | None => Float64.zero
                        end) (values s))
  = Float64.of_Z (Zsum (map f (values (dropna s)))).
Proof.
  intros HF H.
  assert (E : map (fun o => match o with
                            | Some z => F z
                            | None => Float64.zero
                            end) (values s)
              = map Float64.of_Z
                  (map (fun o => match o with Some z => f z | None => 0 end)
                       (values s))).
  { rewrite map_map. clear H. induction s as [|[i [z|]] s IH].
    - reflexivity.
    - cbn [values map snd dropna] in *.
      rewrite HF by (now left). f_equal. apply IH.
      intros z' Hz'. apply HF. now right.
    - cbn [values map snd dropna] in *. f_equal. now apply IH. }
  assert (Ez : Zsum (map (fun o => match o with Some z => f z | None => 0 end)
                         (values s))
               = Zsum (map f (values (dropna s))) /\
               abs_sum (map (fun o => match o with Some z => f z | None => 0 end)
                            (values s))
               = abs_sum (map f (values (dropna s)))).
  { clear. induction s as [|[i [z|]] s [IH1 IH2]].
    - split; reflexivity.
    - unfold values in *. cbn [map snd dropna].
      rewrite !Zsum_cons, !abs_sum_cons, IH1, IH2. split; reflexivity.
    - unfold values in *. cbn [map snd dropna].
      rewrite !Zsum_cons, !abs_sum_cons, IH1, IH2. split; reflexivity. }
  destruct Ez as [Ez1 Ez2].
  rewrite E, np_sum_exact by (rewrite Ez2; exact H).
  now rewrite Ez1.
Qed.

Lemma count_length (s : Frame (option Z)) :
  count s = Z.of_nat (List.length (values (dropna s))).
Proof. unfold count, values. now rewrite length_map. Qed.

Lemma np_sum_filled (s : Frame (option Z)) :
  abs_sum (values (dropna s)) < 2 ^ 53 ->
  np_sum (filled s) = Float64.of_Z (Zsum (values (dropna s))).
Proof.
  intros H. unfold filled.
  rewrite (np_sum_masked Float64.of_Z (fun z => z)); rewrite ?map_id; auto.
Qed.

(** The mean is the correctly rounded quotient of the exact sum of the
    values present by their number. *)
Lemma mean_exact (s : Frame (option Z)) :
  abs_sum (values (dropna s)) < 2 ^ 53 ->
  mean s =
  if count s =? 0 then Float64.nan
  else Float64.div (Float64.of_Z (Zsum (values (dropna s))))
                   (Float64.of_Z (count s)).
Proof.
  intros H. unfold mean. destruct (count s =? 0); [reflexivity|].
  now rewrite np_sum_filled.
Qed.

Lemma abs_sum_present_le (s : Frame (option Z)) (B : Z) :
  0 <= B -> (forall i d, In (i, Some d) s -> Z.abs d <= B) ->
  abs_sum (values (dropna s)) <= B * Z.of_nat (List.length s).
Proof.
  intros HB. induction s as [|[i [d|]] s IH]; intros H.
  - cbn. lia.
  - unfold values in *. cbn [dropna map snd List.length].
    rewrite abs_sum_cons, Nat2Z.inj_succ.
    pose proof (H i d (or_introl eq_refl)).
    assert (abs_sum (map snd (dropna s)) <= B * Z.of_nat (List.length s))
      by (apply IH; intros j d' Hin; apply (H j d'); now right).
    lia.
  - unfold values in *. cbn [dropna List.length]. rewrite Nat2Z.inj_succ.
    assert (abs_sum (map snd (dropna s)) <= B * Z.of_nat (List.length s))
      by (apply IH; intros j d' Hin; apply (H j d'); now right).
    lia.
Qed.

(** The run of a table that cleaning accepts: the realignment of the
    cancellation column never fails and leaves the table as it is. *)
Lemma run_main_cleaned
    (parse : list Cell -> string -> option Z)
    (csv : list RawRow) (df : Frame Row) :
  clean_data parse (load_data csv) = Ok df ->
  run_main parse csv =
  match subscription_duration df with
  | Raise e => (counts_report df, Raise e)
  | Ok duration =>
      let plotted :=
        counts_report df ++ duration_report duration ++
        [Histplot (values (column canceled_date df)) 30; Show] in
      match heatmap_data (cancellations_by_month df) with
      | Raise e => (plotted, Raise e)
      | Ok data =>
          (plotted ++
           [Heatmap data
              (map (fun kc => strftime_b_Y (fst kc)) (cancellations_by_month df));
            Show], Ok tt)
      end
  end.
Proof.
  intros H. rewrite run_main_steps, H.
  rewrite reassign_canceled_date_same
    by exact (clean_data_load_index parse csv df H).
  destruct (subscription_duration df) as [duration|e]; [|reflexivity].
  cbv zeta. rewrite <- !app_assoc. reflexivity.
Qed.

(** A duration in days of a difference that fits the timedelta range. *)
Lemma duration_days_range (df : Frame Row) (duration : Frame (option Z)) :
  subscription_duration df = Ok duration ->
  forall i d, In (i, Some d) duration -> Z.abs d <= 106752.
Proof.
  intros H. apply mapM_Ok_Forall2 in H.
  induction H as [|[j r] [j' o] df' duration' Hf _ IH]; intros i d Hin.
  - contradiction.
  - destruct Hin as [E|Hin]; [|exact (IH i d Hin)].
    injection E as -> ->. cbn [fst snd] in Hf. unfold sub_datetime in Hf.
    destruct (canceled_date r) as [c|]; [|discriminate].
    destruct (created_date r) as [t|]; [|discriminate].
    destruct (Z.ltb_spec int64_min (c - t)) as [Hlo|]; [|discriminate].
    destruct (Z.leb_spec (c - t) int64_max) as [Hhi|]; [|discriminate].
    cbn [andb bind days option_map] in Hf. injection Hf as _ <-.
    unfold int64_min, int64_max in *.
    change ns_per_day with 86400000000000.
    Z.div_mod_to_equations. lia.
Qed.

Lemma subscription_duration_length (df : Frame Row) (duration : Frame (option Z)) :
  subscription_duration df = Ok duration ->
  List.length duration = List.length df.
Proof.
  intros H. apply mapM_Ok_Forall2 in H. symmetry.
  induction H; cbn [List.length]; congruence.
Qed.

(** The durations of a table of fewer than [2^36] rows add up exactly. *)
Lemma duration_sum_bound (df : Frame Row) (duration : Frame (option Z)) :
  subscription_duration df = Ok duration ->
  Z.of_nat (List.length df) < 2 ^ 36 ->
  abs_sum (values (dropna duration)) < 2 ^ 53.
Proof.
  intros H Hlen.
  pose proof (abs_sum_present_le duration 106752 ltac:(lia)
                (duration_days_range df duration H)) as Hle.
  rewrite (subscription_duration_length df duration H) in Hle.
  change (2 ^ 53) with (131072 * 2 ^ 36). lia.
Qed.

(** C3, as stated, fails on a table with two dates further apart than a
    timedelta can hold: cleaning accepts it, and the duration column is not
    computed at all. *)
Lemma duration_undefined_for_distant_dates :
  ~ (forall csv df,
       clean_data reference_parser (load_data csv) = Ok df ->
       exists duration, subscription_duration df = Ok duration).
Proof.
  intros H.
  destruct (H far_apart far_apart_cleaned clean_far_apart) as [duration Hd].
  vm_compute in Hd. discriminate.
Qed.

(** C3, amended.  On a cleaned table whose date differences fit the
    timedelta range, [subscription_duration] is, row by row, the whole
    number of days from [created_date] to [canceled_date], and it is present
    only where [canceled_date] is.  The mean is the sum of the column, with
    [0.0] at the missing rows, divided by the number [n] of durations
    present; in a table of fewer than [2^36] rows that sum is the exact sum
    of the durations present, so the mean is their correctly rounded
    average.  The variance is the sum over the column of the squared
    deviations from the mean, again with [0.0] at the missing rows, divided
    by [n - 1], and is undefined for [n <= 1]; the standard deviation is its
    square root.  These are the values the run prints.  When the durations
    present are 10, 20 and 30 days they are 20.0, 100.0 and 10.0, wherever
    the missing rows are. *)
Theorem duration_statistics
    (parse : list Cell -> string -> option Z)
    (csv : list RawRow) (df : Frame Row) :
  clean_data parse (load_data csv) = Ok df ->
  (forall i r c t, In (i, r) df ->
     canceled_date r = Some c -> created_date r = Some t ->
     int64_min < c - t <= int64_max) ->
  exists duration,
    subscription_duration df = Ok duration /\
    Forall2 (fun row d =>
               fst d = fst row /\
               snd d = match canceled_date (snd row), created_date (snd row) with
                       | Some c, Some t => Some ((c - t) / ns_per_day)
                       | _, _ => None
                       end) df duration /\
    (forall i d, In (i, Some d) duration ->
       exists r c, In (i, r) df /\ canceled_date r = Some c) /\
    let present := values (dropna duration) in
    let n := Z.of_nat (List.length present) in
    present = flat_map (fun ir =>
                match canceled_date (snd ir), created_date (snd ir) with
                | Some c, Some t => [(c - t) / ns_per_day]
                | _, _ => []
                end) df /\
    mean duration =
      (if n =? 0 then Float64.nan
       else Float64.div (np_sum (filled duration)) (Float64.of_Z n)) /\
    (Z.of_nat (List.length df) < 2 ^ 36 ->
     np_sum (filled duration) = Float64.of_Z (Zsum present) /\
     mean duration =
       (if n =? 0 then Float64.nan
        else Float64.div (Float64.of_Z (Zsum present)) (Float64.of_Z n))) /\
    var duration =
      (if n <=? 1 then Float64.nan
       else
         Float64.div
           (np_sum (map (fun o =>
                           match o with
                           | Some x =>
                               let d := Float64.sub (mean duration)
                                                    (Float64.of_Z x) in
                               Float64.mul d d
                           | None => Float64.zero
                           end) (values duration)))
           (Float64.of_Z (n - 1))) /\
    std duration = Float64.sqrt (var duration) /\
    (exists rest,
       fst (run_main parse csv) =
       counts_report df ++
       [ Print ("Average subscription duration: " ++
                format_fixed 1 (mean duration) ++ " days");
         Print ("Variance of subscription duration: " ++
                format_fixed 2 (var duration));
         Print ("Standard deviation of subscription duration: " ++
                format_fixed 2 (std duration));
         Print rule ] ++ rest) /\
    (present = [10; 20; 30] ->
     mean duration = Float64.of_Z 20 /\
     var duration = Float64.of_Z 100 /\
     std duration = Float64.of_Z 10).
Proof.
  intros Hclean Hrange.
  pose proof (subscription_duration_in_range df Hrange) as Hd.
  set (duration := column _ df) in *.
  exists duration. split; [exact Hd|].
  split.
  { unfold duration. clear.
    induction df as [|[i r] df IH]; simpl; constructor; auto. }
  split.
  { intros i d Hin. unfold duration, column in Hin. apply in_map_iff in Hin.
    destruct Hin as [[j r] [E Hin]]. simpl in E. injection E as -> E.
    destruct (canceled_date r) as [c|] eqn:Ec; [|discriminate].
    now exists r, c. }
  cbv zeta. rewrite <- count_length. split.
  { unfold duration. rewrite dropna_column_values. apply flat_map_ext.
    intros [i r]. simpl.
    destruct (canceled_date r), (created_date r); reflexivity. }
  split; [reflexivity|].
  split.
  { intros Hlen. pose proof (duration_sum_bound df duration Hd Hlen) as Hb.
    split; [now apply np_sum_filled | now apply mean_exact]. }
  split.
  { unfold var, mean, squared_deviations.
    destruct (Z.leb_spec (count duration) 1) as [|Hn]; [reflexivity|].
    replace (count duration =? 0) with false
      by (symmetry; apply Z.eqb_neq; lia).
    reflexivity. }
  split; [reflexivity|].
  split.
  { rewrite (run_main_cleaned parse csv df Hclean), Hd. cbv zeta.
    destruct (heatmap_data (cancellations_by_month df)) as [data|e];
      simpl fst; rewrite <- ?app_assoc; eexists; reflexivity. }
  intros E.
  assert (Hn : count duration = 3) by (now rewrite count_length, E).
  assert (Hsum : np_sum (filled duration) = Float64.of_Z 60).
  { rewrite np_sum_filled; rewrite E; [reflexivity | vm_compute; reflexivity]. }
  assert (Hmean : mean duration = Float64.of_Z 20).
  { unfold mean. rewrite Hn, Hsum. vm_compute. reflexivity. }
  assert (Hvar : var duration = Float64.of_Z 100).
  { unfold var. rewrite Hn, Hsum. cbn [Z.leb Z.compare Pos.compare Pos.compare_cont].
    replace (Float64.div (Float64.of_Z 60) (Float64.of_Z 3))
      with (Float64.of_Z 20) by (vm_compute; reflexivity).
    unfold squared_deviations.
    rewrite (np_sum_masked _ (fun z => (20 - z) * (20 - z))).
    - rewrite E. vm_compute. reflexivity.
    - rewrite E. intros z [<- | [<- | [<- | []]]]; vm_compute; reflexivity.
    - rewrite E. vm_compute. reflexivity. }
  split; [exact Hmean|]. split; [exact Hvar|].
  unfold std. rewrite Hvar. vm_compute. reflexivity.
Qed.

Lemma duration_statistics_witness :
  exists duration rest,
    subscription_duration three_records_cleaned = Ok duration /\
    values duration = [Some 10; Some 20; Some 30] /\
    mean duration = Float64.of_Z 20 /\
    var duration = Float64.of_Z 100 /\
    std duration = Float64.of_Z 10 /\
    fst (run_main reference_parser three_records) =
    counts_report three_records_cleaned ++
    [ Print "Average subscription duration: 20.0 days";
      Print "Variance of subscription duration: 100.00";
      Print "Standard deviation of subscription duration: 10.00";
      Print rule ] ++ rest.
Proof.
  destruct (duration_statistics reference_parser three_records
              three_records_cleaned clean_three_records)
    as [duration [Hd [_ [_ [_ [_ [_ [_ [_ [[rest Hrun] Hfix]]]]]]]]]].
  - unfold three_records_cleaned. intros i r c t Hin Ec Et.
    destruct Hin as [E|[E|[E|[]]]]; injection E as <- <-;
      injection Ec as <-; injection Et as <-;
      unfold int64_min, int64_max; lia.
  - assert (E : duration =
                [(0%nat, Some 10); (1%nat, Some 20); (2%nat, Some 30)]).
    { vm_compute in Hd. now injection Hd as <-. }
    subst duration. destruct (Hfix eq_refl) as [Hm [Hv Hs]].
    eexists. exists rest.
    split; [exact Hd|]. split; [reflexivity|].
    split; [exact Hm|]. split; [exact Hv|]. split; [exact Hs|].
    rewrite Hrun, Hm, Hv, Hs. reflexivity.
Defined.

(** ** No cancellation at all *)

Lemma dropna_all_missing (df : Frame Row) (f : Row -> option Z) :
  (forall i r, In (i, r) df -> f r = None) -> dropna (column f df) = [].
Proof.
  induction df as [|[i r] df IH]; intros H; simpl; [reflexivity|].
  rewrite (H i r (or_introl eq_refl)). apply IH.
  intros j r' Hin. apply (H j r'). now right.
Qed.

Lemma duration_without_cancellation (df : Frame Row) :
  (forall i r, In (i, r) df -> canceled_date r = None) ->
  exists duration, subscription_duration df = Ok duration.
Proof.
  intros Hnone. eexists. apply subscription_duration_in_range.
  intros i r c t Hin Ec. rewrite (Hnone i r Hin) in Ec. discriminate.
Qed.

(** C7.  When no row of the cleaned table has a cancellation date, the
    duration column is computed without an exception and has no present
    value; mean, variance and standard deviation are NaN and print as
    [nan]; the run goes on to the histogram. *)
Theorem statistics_without_cancellation
    (parse : list Cell -> string -> option Z)
    (csv : list RawRow) (df : Frame Row) :
  clean_data parse (load_data csv) = Ok df ->
  (forall i r, In (i, r) df -> canceled_date r = None) ->
  exists duration,
    subscription_duration df = Ok duration /\
    dropna duration = [] /\
    mean duration = Float64.nan /\
    var duration = Float64.nan /\
    std duration = Float64.nan /\
    exists rest,
      fst (run_main parse csv) =
      counts_report df ++
      [ Print "Average subscription duration: nan days";
        Print "Variance of subscription duration: nan";
        Print "Standard deviation of subscription duration: nan";
        Print rule;
        Histplot (values (column canceled_date df)) 30;
        Show ] ++ rest.
Proof.
  intros Hclean Hnone.
  assert (Hd : subscription_duration df =
               Ok (column (fun r => match canceled_date r, created_date r with
                                    | Some c, Some t => Some ((c - t) / ns_per_day)
                                    | _, _ => None
                                    end) df)).
  { apply subscription_duration_in_range. intros i r c t Hin Ec.
    rewrite (Hnone i r Hin) in Ec. discriminate. }
  eexists. split; [exact Hd|].
  assert (He : dropna (column (fun r => match canceled_date r, created_date r with
                                        | Some c, Some t => Some ((c - t) / ns_per_day)
                                        | _, _ => None
                                        end) df) = []).
  { apply dropna_all_missing. intros i r Hin. now rewrite (Hnone i r Hin). }
  split; [exact He|].
  unfold std, var, mean, count. rewrite He.
  split; [reflexivity|]. split; [reflexivity|]. split; [reflexivity|].
  rewrite (run_main_cleaned parse csv df Hclean), Hd. cbv zeta.
  unfold duration_report, std, var, mean, count. rewrite He.
  destruct (heatmap_data (cancellations_by_month df)) as [data|e];
    simpl fst; rewrite <- ?app_assoc; eexists; reflexivity.
Qed.

Lemma statistics_without_cancellation_witness :
  exists rest,
    fst (run_main reference_parser bad_end) =
    counts_report bad_end_cleaned ++
    [ Print "Average subscription duration: nan days";
      Print "Variance of subscription duration: nan";
      Print "Standard deviation of subscription duration: nan";
      Print rule;
      Histplot [None; None] 30;
      Show ] ++ rest.
Proof.
  destruct (statistics_without_cancellation reference_parser bad_end
              bad_end_cleaned clean_bad_end)
    as [duration [_ [_ [_ [_ [_ [rest Hrun]]]]]]].
  - unfold bad_end_cleaned. intros i r [E|[E|[]]]; injection E as <- <-;
      reflexivity.
  - exists rest. exact Hrun.
Defined.

(** ** The calendar *)

(** Within a 400-year era, the day count built from a year of the era and
    a month counted from March gives both back. *)
Lemma civil_core (yoe mp : Z) :
  0 <= yoe < 400 -> 0 <= mp < 12 ->
  let doe := yoe * 365 + yoe / 4 - yoe / 100 + (153 * mp + 2) / 5 in
  0 <= doe < 146097 /\
  (doe - doe / 1460 + doe / 36524 - doe / 146096) / 365 = yoe /\
  (5 * (doe - (365 * yoe + yoe / 4 - yoe / 100)) + 2) / 153 = mp.
Proof.
  intros Hy Hm doe. unfold doe. Z.div_mod_to_equations. lia.
Qed.

(** The first day of a month converts to its day count and back. *)
Lemma civil_from_days_from_civil (y m : Z) :
  1 <= m <= 12 -> civil_from_days (days_from_civil y m 1) = (y, m, 1).
Proof.
  intros Hm. unfold days_from_civil. cbv zeta.
  set (y' := if m <=? 2 then y - 1 else y).
  set (era := y' / 400).
  set (yoe := y' - era * 400).
  set (mp := if 2 <? m then m - 3 else m + 9).
  assert (Hyoe : 0 <= yoe < 400).
  { unfold yoe, era. pose proof (Z.mod_pos_bound y' 400 eq_refl) as Hb.
    rewrite Z.mod_eq in Hb by discriminate. lia. }
  assert (Hmp : 0 <= mp < 12).
  { unfold mp. destruct (Z.ltb_spec 2 m); lia. }
  pose proof (civil_core yoe mp Hyoe Hmp) as Hc. cbv zeta in Hc.
  set (doe := yoe * 365 + yoe / 4 - yoe / 100 + (153 * mp + 2) / 5) in Hc.
  destruct Hc as [[Hlo Hhi] [Hyoe' Hmp']].
  replace (era * 146097 +
           (yoe * 365 + yoe / 4 - yoe / 100 + ((153 * mp + 2) / 5 + 1 - 1)) -
           719468)
    with (era * 146097 + doe - 719468) by (unfold doe; lia).
  unfold civil_from_days. cbv zeta.
  replace (era * 146097 + doe - 719468 + 719468) with (doe + era * 146097)
    by lia.
  rewrite Z.div_add by discriminate.
  rewrite (Z.div_small doe 146097) by lia.
  replace (doe + era * 146097 - (0 + era) * 146097) with doe by lia.
  rewrite Hyoe'. rewrite Hmp'.
  assert (Hdoy : doe - (365 * yoe + yoe / 4 - yoe / 100) = (153 * mp + 2) / 5)
    by (unfold doe; lia).
  rewrite Hdoy.
  replace ((153 * mp + 2) / 5 - (153 * mp + 2) / 5 + 1) with 1 by lia.
  assert (Em : (if mp <? 10 then mp + 3 else mp - 9) = m).
  { unfold mp. destruct (Z.ltb_spec 2 m);
      [destruct (Z.ltb_spec (m - 3) 10) | destruct (Z.ltb_spec (m + 9) 10)];
      lia. }
  rewrite Em. f_equal. f_equal.
  unfold yoe, y'. destruct (Z.leb_spec m 2); lia.
Qed.

Lemma ns_per_day_pos : 0 < ns_per_day.
Proof. reflexivity. Qed.

Lemma civil_of_to_timestamp (p : Z) :
  civil_from_days (to_timestamp p / ns_per_day) =
  (period_year p, period_month p, 1).
Proof.
  unfold to_timestamp. rewrite Z.div_mul by discriminate.
  apply civil_from_days_from_civil. unfold period_month.
  pose proof (Z.mod_pos_bound p 12 eq_refl). lia.
Qed.

(** The month a bucket is labelled with is the month of its period. *)
Lemma month_of_to_timestamp (p : Z) : month_of (to_timestamp p) = period_month p.
Proof. unfold month_of. now rewrite civil_of_to_timestamp. Qed.

Lemma year_of_to_timestamp (p : Z) : year_of (to_timestamp p) = period_year p.
Proof. unfold year_of. now rewrite civil_of_to_timestamp. Qed.

Lemma to_period_to_timestamp (p : Z) : to_period (to_timestamp p) = p.
Proof.
  unfold to_period. rewrite month_of_to_timestamp, year_of_to_timestamp.
  unfold period_of_ym, period_year, period_month.
  pose proof (Z.div_mod p 12). lia.
Qed.

Lemma day_of_year_range (doe : Z) :
  0 <= doe < 146097 ->
  let yoe := (doe - doe / 1460 + doe / 36524 - doe / 146096) / 365 in
  0 <= doe - (365 * yoe + yoe / 4 - yoe / 100) <= 365.
Proof.
  intros H yoe. unfold yoe. Z.div_mod_to_equations. lia.
Qed.

(** Every timestamp falls in one of the twelve months. *)
Lemma month_of_range (t : Z) : 1 <= month_of t <= 12.
Proof.
  unfold month_of, civil_from_days. cbv zeta. cbn [fst snd].
  set (z' := t / ns_per_day + 719468).
  set (doe := z' - z' / 146097 * 146097).
  assert (Hdoe : 0 <= doe < 146097).
  { unfold doe. pose proof (Z.mod_pos_bound z' 146097 eq_refl) as Hb.
    rewrite Z.mod_eq in Hb by discriminate. lia. }
  pose proof (day_of_year_range doe Hdoe) as Hdoy. cbv zeta in Hdoy.
  set (yoe := (doe - doe / 1460 + doe / 36524 - doe / 146096) / 365) in *.
  set (doy := doe - (365 * yoe + yoe / 4 - yoe / 100)) in *.
  assert (Hmp : 0 <= (5 * doy + 2) / 153 < 12).
  { split.
    - apply Z.div_pos; lia.
    - apply Z.div_lt_upper_bound; lia. }
  destruct (Z.ltb_spec ((5 * doy + 2) / 153) 10); lia.
Qed.

Lemma period_month_to_period (t : Z) : period_month (to_period t) = month_of t.
Proof.
  pose proof (month_of_range t) as H.
  unfold period_month, to_period, period_of_ym.
  replace ((year_of t - 1970) * 12 + (month_of t - 1))
    with ((month_of t - 1) + (year_of t - 1970) * 12) by lia.
  rewrite Z.mod_add by discriminate. rewrite Z.mod_small by lia. lia.
Qed.

Lemma period_year_to_period (t : Z) : period_year (to_period t) = year_of t.
Proof.
  pose proof (month_of_range t) as H.
  unfold period_year, to_period, period_of_ym.
  replace ((year_of t - 1970) * 12 + (month_of t - 1))
    with ((month_of t - 1) + (year_of t - 1970) * 12) by lia.
  rewrite Z.div_add by discriminate. rewrite Z.div_small by lia. lia.
Qed.

(** Month starts come in the order of their periods. *)
Lemma month_start_step (p : Z) :
  days_from_civil (period_year p) (period_month p) 1 <
  days_from_civil (period_year (p + 1)) (period_month (p + 1)) 1.
Proof.
  unfold days_from_civil, period_year, period_month. cbv zeta.
  destruct (Z.leb_spec (p mod 12 + 1) 2);
    destruct (Z.ltb_spec 2 (p mod 12 + 1));
    destruct (Z.leb_spec ((p + 1) mod 12 + 1) 2);
    destruct (Z.ltb_spec 2 ((p + 1) mod 12 + 1));
    try lia; Z.div_mod_to_equations; lia.
Qed.

Lemma to_timestamp_lt (p q : Z) : p < q -> to_timestamp p < to_timestamp q.
Proof.
  intros H.
  assert (G : forall n : nat, to_timestamp p < to_timestamp (p + 1 + Z.of_nat n)).
  { induction n as [|n IH].
    - replace (p + 1 + Z.of_nat 0) with (p + 1) by lia.
      unfold to_timestamp. pose proof (month_start_step p).
      apply Z.mul_lt_mono_pos_r; [reflexivity | assumption].
    - replace (p + 1 + Z.of_nat (S n)) with (p + 1 + Z.of_nat n + 1) by lia.
      eapply Z.lt_trans; [exact IH|].
      unfold to_timestamp. pose proof (month_start_step (p + 1 + Z.of_nat n)).
      apply Z.mul_lt_mono_pos_r; [reflexivity | assumption]. }
  specialize (G (Z.to_nat (q - p - 1))).
  replace (p + 1 + Z.of_nat (Z.to_nat (q - p - 1))) with q in G by lia.
  exact G.
Qed.

(** ** Grouping *)

Lemma count_into_keys (k : Z) (acc : list (Z * Z)) (k' : Z) :
  In k' (map fst (count_into k acc)) <-> k' = k \/ In k' (map fst acc).
Proof.
  induction acc as [|[k0 n] acc IH]; simpl.
  - intuition.
  - destruct (Z.ltb_spec k k0); simpl; [intuition|].
    destruct (Z.eqb_spec k k0); simpl.
    + subst. intuition.
    + rewrite IH. intuition.
Qed.

Lemma count_into_sorted (k : Z) (acc : list (Z * Z)) :
  StronglySorted Z.lt (map fst acc) ->
  StronglySorted Z.lt (map fst (count_into k acc)).
Proof.
  induction acc as [|[k0 n] acc IH]; simpl; intros H.
  - repeat constructor.
  - inversion H as [|x l Hs Hall]; subst.
    destruct (Z.ltb_spec k k0); simpl.
    + constructor; [exact H|]. constructor; [assumption|].
      eapply Forall_impl; [|exact Hall]. simpl. intros; lia.
    + destruct (Z.eqb_spec k k0); simpl; [exact H|].
      constructor; [now apply IH|]. apply Forall_forall. intros x Hx.
      apply count_into_keys in Hx. destruct Hx as [->|Hx]; [lia|].
      rewrite Forall_forall in Hall. now apply Hall.
Qed.

Lemma count_into_bucket (k : Z) (acc : list (Z * Z)) (k' : Z) :
  bucket k' (count_into k acc) = bucket k' acc + (if k' =? k then 1 else 0).
Proof.
  induction acc as [|[k0 n] acc IH]; simpl.
  - lia.
  - destruct (Z.ltb_spec k k0); simpl; [lia|].
    destruct (Z.eqb_spec k k0); simpl.
    + subst. destruct (k' =? k0); lia.
    + rewrite IH. lia.
Qed.

Lemma count_into_positive (k : Z) (acc : list (Z * Z)) :
  Forall (fun kc => 1 <= snd kc) acc ->
  Forall (fun kc => 1 <= snd kc) (count_into k acc).
Proof.
  induction acc as [|[k0 n] acc IH]; simpl; intros H.
  - repeat constructor. simpl. lia.
  - inversion H as [|x l Hn Hrest]; subst. simpl in Hn.
    destruct (Z.ltb_spec k k0); [constructor; [simpl; lia | exact H]|].
    destruct (Z.eqb_spec k k0); constructor; simpl; auto; lia.
Qed.

Lemma bucket_absent (k : Z) (b : list (Z * Z)) :
  ~ In k (map fst b) -> bucket k b = 0.
Proof.
  induction b as [|[k0 n] b IH]; simpl; intros H; [reflexivity|].
  destruct (Z.eqb_spec k k0); [subst; tauto|]. rewrite IH; tauto.
Qed.

Lemma bucket_In (k n : Z) (b : list (Z * Z)) :
  StronglySorted Z.lt (map fst b) -> In (k, n) b -> bucket k b = n.
Proof.
  induction b as [|[k0 n0] b IH]; simpl; intros Hs Hin; [contradiction|].
  inversion Hs as [|x l Hs' Hall]; subst. rewrite Forall_forall in Hall.
  destruct Hin as [E|Hin].
  - injection E as -> ->. rewrite Z.eqb_refl.
    rewrite bucket_absent; [lia|].
    intros Hk. specialize (Hall k Hk). lia.
  - assert (k0 < k) by (apply Hall; apply in_map_iff; now exists (k, n)).
    destruct (Z.eqb_spec k k0); [lia|]. rewrite IH; auto.
Qed.

Lemma occurrences_Some (k k0 : Z) (keys : list (option Z)) :
  occurrences k (Some k0 :: keys) =
  (if k0 =? k then 1 else 0) + occurrences k keys.
Proof.
  unfold occurrences. cbn [filter].
  destruct (k0 =? k); cbn [List.length]; [rewrite Nat2Z.inj_succ|]; lia.
Qed.

Lemma occurrences_None (k : Z) (keys : list (option Z)) :
  occurrences k (None :: keys) = occurrences k keys.
Proof. reflexivity. Qed.

Lemma occurrences_nonneg (k : Z) (keys : list (option Z)) :
  0 <= occurrences k keys.
Proof. unfold occurrences. lia. Qed.

Lemma occurrences_pos (k : Z) (keys : list (option Z)) :
  In (Some k) keys <-> 1 <= occurrences k keys.
Proof.
  induction keys as [|[k0|] keys IH].
  - unfold occurrences. simpl. split; [contradiction | lia].
  - rewrite occurrences_Some. pose proof (occurrences_nonneg k keys).
    simpl In. destruct (Z.eqb_spec k0 k).
    + subst. split; [lia | auto].
    + split.
      * intros [E|H']; [congruence|]. apply IH in H'. lia.
      * intros H'. right. apply IH. lia.
  - rewrite occurrences_None. simpl In. split.
    + intros [E|H]; [discriminate | now apply IH].
    + intros H. right. now apply IH.
Qed.

(** [groupby_size], carried through the fold. *)
Lemma groupby_fold (keys : list (option Z)) (acc : list (Z * Z)) :
  StronglySorted Z.lt (map fst acc) ->
  Forall (fun kc => 1 <= snd kc) acc ->
  let b := fold_left (fun acc k => match k with
                                   | Some k => count_into k acc
                                   | None => acc
                                   end) keys acc in
  StronglySorted Z.lt (map fst b) /\
  Forall (fun kc => 1 <= snd kc) b /\
  (forall k, In k (map fst b) <-> In k (map fst acc) \/ In (Some k) keys) /\
  (forall k, bucket k b = bucket k acc + occurrences k keys).
Proof.
  revert acc. induction keys as [|o keys IH]; intros acc Hs Hp; simpl.
  - split; [exact Hs|]. split; [exact Hp|]. split.
    + intros k. simpl. tauto.
    + intros k. unfold occurrences. simpl. lia.
  - destruct o as [k0|].
    + destruct (IH (count_into k0 acc) (count_into_sorted k0 acc Hs)
                  (count_into_positive k0 acc Hp)) as [Hs' [Hp' [Hk Hb]]].
      split; [exact Hs'|]. split; [exact Hp'|]. split.
      * intros k. rewrite Hk, count_into_keys. simpl In. split.
        -- intros [[->|H]|H]; auto.
        -- intros [H|[E|H]]; auto. injection E as ->. auto.
      * intros k. rewrite Hb, count_into_bucket, occurrences_Some.
        rewrite (Z.eqb_sym k k0). destruct (k0 =? k); lia.
    + destruct (IH acc Hs Hp) as [Hs' [Hp' [Hk Hb]]].
      split; [exact Hs'|]. split; [exact Hp'|]. split.
      * intros k. rewrite Hk. simpl In. split.
        -- intros [H|H]; auto.
        -- intros [H|[E|H]]; auto. discriminate.
      * intros k. rewrite Hb, occurrences_None. reflexivity.
Qed.

(** What [groupby(...).size()] returns: the present keys in ascending
    order, each once, each with the number of its occurrences. *)
Lemma groupby_size_spec (keys : list (option Z)) :
  StronglySorted Z.lt (map fst (groupby_size keys)) /\
  (forall k, In k (map fst (groupby_size keys)) <-> In (Some k) keys) /\
  (forall k n, In (k, n) (groupby_size keys) <->
               1 <= n /\ n = occurrences k keys).
Proof.
  destruct (groupby_fold keys [] (SSorted_nil _) (Forall_nil _))
    as [Hs [Hp [Hk Hb]]].
  fold (groupby_size keys) in Hs, Hp, Hk, Hb. simpl in Hk, Hb.
  split; [exact Hs|]. split; [intros k; rewrite Hk; tauto|].
  intros k n. split.
  - intros Hin. rewrite Forall_forall in Hp. split; [exact (Hp _ Hin)|].
    rewrite <- (bucket_In k n _ Hs Hin). apply Hb.
  - intros [Hn ->]. apply occurrences_pos in Hn.
    assert (Hin : In k (map fst (groupby_size keys))) by (apply Hk; auto).
    apply in_map_iff in Hin. destruct Hin as [[k' n'] [E Hin]].
    simpl in E. subst k'.
    rewrite <- (Hb k), (bucket_In k n' _ Hs Hin). exact Hin.
Qed.

Lemma occurrences_canceled_month (k : Z) (df : Frame Row) :
  occurrences k (values (canceled_month df)) = cancellations_in k df.
Proof.
  unfold occurrences, cancellations_in, canceled_month, canceled_in.
  f_equal. induction df as [|[i r] df IH]; simpl; [reflexivity|].
  destruct (canceled_date r) as [t|]; simpl; [|exact IH].
  destruct (_ =? k); simpl; congruence.
Qed.

Lemma cancellations_in_le (k : Z) (df : Frame Row) :
  cancellations_in k df <= Z.of_nat (List.length df).
Proof.
  unfold cancellations_in. apply Nat2Z.inj_le. apply filter_length_le.
Qed.

Lemma In_canceled_month (k : Z) (df : Frame Row) :
  In (Some k) (values (canceled_month df)) <->
  exists i r t, In (i, r) df /\ canceled_date r = Some t /\ to_period t = k.
Proof.
  unfold canceled_month. rewrite values_column, in_map_iff. split.
  - intros [r [E Hr]]. apply In_values in Hr. destruct Hr as [i Hr].
    destruct (canceled_date r) as [t|] eqn:Et; [|discriminate].
    injection E as E. now exists i, r, t.
  - intros [i [r [t [Hin [Et Ek]]]]]. exists r. split.
    + subst k. now rewrite Et.
    + apply In_values. now exists i.
Qed.

(** ** Sorted keys *)

Lemma sorted_lt_NoDup (l : list Z) : StronglySorted Z.lt l -> NoDup l.
Proof.
  induction 1 as [|a l Hs IH Hall]; constructor; [|exact IH].
  intros Hin. rewrite Forall_forall in Hall. specialize (Hall a Hin). lia.
Qed.

Lemma sorted_lt_map (f : Z -> Z) (l : list Z) :
  (forall p q, p < q -> f p < f q) ->
  StronglySorted Z.lt l -> StronglySorted Z.lt (map f l).
Proof.
  intros Hf. induction 1 as [|a l Hs IH Hall]; simpl; constructor; [exact IH|].
  rewrite Forall_forall in *. intros x Hx. apply in_map_iff in Hx.
  destruct Hx as [y [<- Hy]]. apply Hf. now apply Hall.
Qed.

Lemma sorted_lt_last (l : list Z) (a : Z) :
  StronglySorted Z.lt (l ++ [a]) -> forall x, In x l -> x < a.
Proof.
  induction l as [|b l IH]; simpl; intros H x Hx; [contradiction|].
  inversion H as [|y l' Hs Hall]; subst. destruct Hx as [->|Hx].
  - rewrite Forall_forall in Hall. apply Hall. apply in_or_app. right. now left.
  - now apply IH.
Qed.

Lemma sorted_lt_pair (l : list Z) (a b : Z) :
  StronglySorted Z.lt l -> a < b ->
  (forall k, In k l <-> k = a \/ k = b) -> l = [a; b].
Proof.
  intros Hs Hab Hk.
  destruct l as [|x l]; [exfalso; apply (Hk a); auto|].
  inversion Hs as [|y l' Hs' Hall]; subst. rewrite Forall_forall in Hall.
  assert (Hx : x = a).
  { destruct (proj1 (Hk x) (or_introl eq_refl)) as [-> | ->]; [reflexivity|].
    assert (Ha : In a (b :: l)) by (apply Hk; auto).
    destruct Ha as [Ha|Ha]; [lia|]. specialize (Hall a Ha). lia. }
  subst x. f_equal.
  destruct l as [|y l]; [exfalso|].
  { assert (Hb : In b [a]) by (apply Hk; auto). destruct Hb as [Hb|[]]. lia. }
  inversion Hs' as [|z l' Hs'' Hall']; subst. rewrite Forall_forall in Hall'.
  assert (Hy : y = b).
  { destruct (proj1 (Hk y) (or_intror (or_introl eq_refl))) as [-> | ->];
      [|reflexivity].
    specialize (Hall a (or_introl eq_refl)). lia. }
  subst y. f_equal.
  destruct l as [|z l]; [reflexivity|exfalso].
  assert (Hz : In z (a :: b :: z :: l)) by (simpl; auto).
  specialize (Hall' z (or_introl eq_refl)).
  apply Hk in Hz. lia.
Qed.

(** ** The heatmap row *)

Lemma iloc_last_app {A : Type} (l : list A) (a : A) : iloc_last (l ++ [a]) = Ok a.
Proof. unfold iloc_last. now rewrite rev_app_distr. Qed.

Lemma set_last_app (l : list Z) (a v : Z) : set_last (l ++ [a]) v = l ++ [v].
Proof.
  unfold set_last. rewrite rev_app_distr. simpl. now rewrite rev_involutive.
Qed.

Lemma heatmap_data_last (front : list (Z * Z)) (t n : Z) :
  0 <= n < 2 ^ 49 ->
  heatmap_data (front ++ [(t, n)]) =
  Ok (map snd front ++ [if month_of t =? 9 then 30 * n / 8 else n]).
Proof.
  intros Hn. unfold heatmap_data. rewrite !map_app. simpl map.
  rewrite iloc_last_app. cbn [bind].
  destruct (month_of t =? 9); [|reflexivity].
  rewrite iloc_last_app. cbn [bind].
  rewrite (scale_september_exact n Hn). cbn [bind].
  unfold to_int64.
  assert (H : 0 <= 30 * n / 8 < 2 ^ 49 * 4).
  { split; [apply Z.div_pos; lia|]. apply Z.div_lt_upper_bound; lia. }
  replace (int64_min <=? 30 * n / 8) with true
    by (symmetry; apply Z.leb_le; unfold int64_min; lia).
  replace (30 * n / 8 <=? int64_max) with true
    by (symmetry; apply Z.leb_le; unfold int64_max;
        change (2 ^ 63) with (2 ^ 49 * 16384); lia).
  cbn [bind andb]. now rewrite set_last_app.
Qed.

(** The buckets of a table: periods in ascending order, each with the
    number of rows cancelled in it. *)
Lemma grouped_spec (df : Frame Row) :
  let grouped := groupby_size (values (canceled_month df)) in
  StronglySorted Z.lt (map fst grouped) /\
  (forall k, In k (map fst grouped) <->
             exists i r t, In (i, r) df /\ canceled_date r = Some t /\
                           to_period t = k) /\
  (forall k n, In (k, n) grouped <-> 1 <= n /\ n = cancellations_in k df).
Proof.
  intros grouped.
  destruct (groupby_size_spec (values (canceled_month df))) as [Hs [Hk Hn]].
  fold grouped in Hs, Hk, Hn.
  split; [exact Hs|]. split.
  - intros k. rewrite Hk. apply In_canceled_month.
  - intros k n. rewrite Hn, occurrences_canceled_month. reflexivity.
Qed.

Lemma by_month_keys (df : Frame Row) :
  map fst (cancellations_by_month df) =
  map to_timestamp (map fst (groupby_size (values (canceled_month df)))).
Proof.
  unfold cancellations_by_month. rewrite !map_map. reflexivity.
Qed.

Lemma by_month_sorted (df : Frame Row) :
  StronglySorted Z.lt (map fst (cancellations_by_month df)).
Proof.
  rewrite by_month_keys. apply sorted_lt_map; [exact to_timestamp_lt|].
  apply (grouped_spec df).
Qed.

Lemma by_month_In (df : Frame Row) (t n : Z) :
  In (t, n) (cancellations_by_month df) ->
  t = to_timestamp (to_period t) /\
  1 <= n /\ n = cancellations_in (to_period t) df.
Proof.
  unfold cancellations_by_month. intros H. apply in_map_iff in H.
  destruct H as [[k n'] [E Hin]]. simpl in E. injection E as <- <-.
  rewrite to_period_to_timestamp. split; [reflexivity|].
  now apply (grouped_spec df).
Qed.

(** ** Monthly aggregation *)

(** C8.  The heatmap aggregation makes one bucket for every year-month in
    which some record was cancelled and none else, in ascending order; the
    bucket of a month holds the number of records cancelled in that month,
    and it is labelled with the first instant of the month.  In particular,
    when all cancellations fall in January and February of one year, with
    at least one in each, there are exactly two buckets, January then
    February, each with its count. *)
Theorem monthly_buckets (df : Frame Row) :
  let grouped := groupby_size (values (canceled_month df)) in
  cancellations_by_month df =
    map (fun kc => (to_timestamp (fst kc), snd kc)) grouped /\
  StronglySorted Z.lt (map fst grouped) /\
  NoDup (map fst grouped) /\
  NoDup (map fst (cancellations_by_month df)) /\
  (forall k, In k (map fst grouped) <->
             exists i r t, In (i, r) df /\ canceled_date r = Some t /\
                           to_period t = k) /\
  (forall k n, In (k, n) grouped <-> 1 <= n /\ n = cancellations_in k df) /\
  (forall k, year_of (to_timestamp k) = period_year k /\
             month_of (to_timestamp k) = period_month k) /\
  (forall y,
     (forall i r t, In (i, r) df -> canceled_date r = Some t ->
        year_of t = y /\ (month_of t = 1 \/ month_of t = 2)) ->
     1 <= cancellations_in (period_of_ym y 1) df ->
     1 <= cancellations_in (period_of_ym y 2) df ->
     cancellations_by_month df =
       [ (to_timestamp (period_of_ym y 1), cancellations_in (period_of_ym y 1) df);
         (to_timestamp (period_of_ym y 2), cancellations_in (period_of_ym y 2) df) ]).
Proof.
  intros grouped. destruct (grouped_spec df) as [Hs [Hk Hn]].
  fold grouped in Hs, Hk, Hn.
  split; [reflexivity|]. split; [exact Hs|].
  split; [now apply sorted_lt_NoDup|].
  split; [apply sorted_lt_NoDup, by_month_sorted|].
  split; [exact Hk|]. split; [exact Hn|].
  split; [intros k; split;
          [apply year_of_to_timestamp | apply month_of_to_timestamp]|].
  intros y Hall Hjan Hfeb.
  set (p1 := period_of_ym y 1) in *. set (p2 := period_of_ym y 2) in *.
  assert (Hkeys : map fst grouped = [p1; p2]).
  { apply sorted_lt_pair; [exact Hs | unfold p1, p2, period_of_ym; lia |].
    intros k. split.
    - intros Hin. apply Hk in Hin. destruct Hin as [i [r [t [Hin [Et Ek]]]]].
      destruct (Hall i r t Hin Et) as [Hy [Hm|Hm]]; subst k;
        unfold to_period; rewrite Hy, Hm; auto.
    - intros [-> | ->].
      + apply in_map_iff. exists (p1, cancellations_in p1 df).
        split; [reflexivity|]. apply Hn. auto.
      + apply in_map_iff. exists (p2, cancellations_in p2 df).
        split; [reflexivity|]. apply Hn. auto. }
  unfold cancellations_by_month. fold grouped.
  destruct grouped as [|[k1 n1] [|[k2 n2] [|x g]]]; try discriminate.
  simpl in Hkeys. injection Hkeys as -> ->.
  assert (H1 : n1 = cancellations_in p1 df) by (apply (Hn p1 n1); simpl; auto).
  assert (H2 : n2 = cancellations_in p2 df) by (apply (Hn p2 n2); simpl; auto).
  subst n1 n2. reflexivity.
Qed.

Lemma monthly_buckets_witness :
  cancellations_by_month january_february_cleaned =
  [ (to_timestamp (period_of_ym 2023 1), 2);
    (to_timestamp (period_of_ym 2023 2), 3) ].
Proof.
  destruct (monthly_buckets january_february_cleaned)
    as [_ [_ [_ [_ [_ [_ [_ H]]]]]]].
  apply (H 2023).
  - unfold january_february_cleaned. intros i r t Hin Et.
    repeat (destruct Hin as [E|Hin];
            [injection E as <- <-; try discriminate;
             injection Et as <-; vm_compute; auto|]).
    contradiction.
  - vm_compute. discriminate.
  - vm_compute. discriminate.
Defined.

(** C10.  The buckets come out in ascending order of their month, both as
    periods and as the timestamps they are labelled with.  So the last
    bucket is later than every other one, no cancellation falls in a later
    month than it and some cancellation falls in it; and of all buckets
    only the last can have its count replaced by the scaled one: the
    others reach the heatmap unchanged, whatever their month. *)
Theorem buckets_in_chronological_order (df : Frame Row) :
  let by_month := cancellations_by_month df in
  StronglySorted Z.lt (map fst by_month) /\
  StronglySorted Z.lt (map (fun kc => to_period (fst kc)) by_month) /\
  (forall front t n, by_month = front ++ [(t, n)] ->
     (forall t' n', In (t', n') front ->
        t' < t /\ to_period t' < to_period t) /\
     (forall i r c, In (i, r) df -> canceled_date r = Some c ->
        to_period c <= to_period t) /\
     (exists i r c, In (i, r) df /\ canceled_date r = Some c /\
                    to_period c = to_period t) /\
     (Z.of_nat (List.length df) < 2 ^ 49 ->
      heatmap_data by_month =
      Ok (map snd front ++ [if month_of t =? 9 then 30 * n / 8 else n]))).
Proof.
  intros by_month. destruct (grouped_spec df) as [Hs [Hk Hn]].
  assert (Hperiods : map (fun kc => to_period (fst kc)) by_month
                     = map fst (groupby_size (values (canceled_month df)))).
  { unfold by_month, cancellations_by_month. rewrite map_map. apply map_ext.
    intros [k n]. simpl. apply to_period_to_timestamp. }
  split; [apply by_month_sorted|]. split; [now rewrite Hperiods|].
  intros front t n E.
  assert (Hin : In (t, n) by_month) by (rewrite E; apply in_or_app; simpl; auto).
  destruct (by_month_In df t n Hin) as [Et [Hn1 Hcount]].
  assert (Hsp : StronglySorted Z.lt (map (fun kc => to_period (fst kc)) by_month))
    by now rewrite Hperiods.
  pose proof (by_month_sorted df) as Hst. fold by_month in Hst.
  rewrite E, map_app in Hsp, Hst. simpl in Hsp, Hst.
  split; [|split; [|split]].
  - intros t' n' Hin'. split.
    + apply (sorted_lt_last _ _ Hst). apply in_map_iff. now exists (t', n').
    + apply (sorted_lt_last _ _ Hsp). apply in_map_iff. now exists (t', n').
  - intros i r c Hr Ec.
    assert (Hc : In (to_period c) (map (fun kc => to_period (fst kc)) by_month)).
    { rewrite Hperiods. apply Hk. now exists i, r, c. }
    rewrite E, map_app in Hc. apply in_app_or in Hc. destruct Hc as [Hc|Hc].
    + apply Z.lt_le_incl. now apply (sorted_lt_last _ _ Hsp).
    + simpl in Hc. destruct Hc as [<-|[]]. lia.
  - apply Hk. rewrite <- Hperiods. apply in_map_iff. now exists (t, n).
  - intros Hlen. rewrite E. apply heatmap_data_last.
    pose proof (cancellations_in_le (to_period t) df). lia.
Qed.

Lemma buckets_in_chronological_order_witness :
  map (fun kc => strftime_b_Y (fst kc)) (cancellations_by_month two_septembers_cleaned)
  = ["Sep 2022"; "Jan 2023"; "Sep 2023"]%string /\
  heatmap_data (cancellations_by_month two_septembers_cleaned) = Ok [2; 1; 3].
Proof.
  split; [vm_compute; reflexivity|].
  destruct (buckets_in_chronological_order two_septembers_cleaned)
    as [_ [_ H]].
  destruct (H [(1661990400000000000, 2); (1672531200000000000, 1)]
              1693526400000000000 1) as [_ [_ [_ Hdata]]].
  - vm_compute. reflexivity.
  - rewrite Hdata; [vm_compute; reflexivity|].
    vm_compute. reflexivity.
Defined.

(** C2, as stated, fails: the scaled count is not rounded to the nearest
    integer.  A single September cancellation in the last bucket is shown
    as 3, the integer part of 3.75, where rounding gives 4. *)
Lemma scaled_count_is_not_rounded :
  ~ (forall df front t n,
       cancellations_by_month df = front ++ [(t, n)] ->
       month_of t = 9 ->
       heatmap_data (cancellations_by_month df) =
       Ok (map snd front ++ [rounded_scaling n])).
Proof.
  intros H.
  specialize (H two_septembers_cleaned
                [(1661990400000000000, 2); (1672531200000000000, 1)]
                1693526400000000000 1).
  vm_compute in H. specialize (H eq_refl eq_refl). discriminate.
Qed.

(** C2, amended.  With the buckets of a table in hand, the row of counts
    handed to the heatmap keeps every count but the last as it is.  The
    last one is replaced exactly when its bucket is a September (the month
    of the label of the bucket, which is the month of every cancellation
    counted in it); the replacement is the count times 30/8 with the
    fraction dropped, as [int()] does, not rounded to nearest: the integer
    [v] with [8 v <= 30 n < 8 v + 8].  The binary64 product is exact for the
    counts of tables with fewer than [2^49] rows. *)
Theorem september_scaling (df : Frame Row) (front : list (Z * Z)) (t n : Z) :
  cancellations_by_month df = front ++ [(t, n)] ->
  Z.of_nat (List.length df) < 2 ^ 49 ->
  let v := 30 * n / 8 in
  heatmap_data (cancellations_by_month df) =
    Ok (map snd front ++ [if month_of t =? 9 then v else n]) /\
  8 * v <= 30 * n < 8 * v + 8 /\
  scale_september n = Ok v /\
  n = cancellations_in (to_period t) df /\
  (forall i r c, In (i, r) df -> canceled_date r = Some c ->
     to_period c = to_period t -> month_of c = month_of t).
Proof.
  intros E Hlen v.
  assert (Hin : In (t, n) (cancellations_by_month df))
    by (rewrite E; apply in_or_app; simpl; auto).
  destruct (by_month_In df t n Hin) as [Et [Hn1 Hcount]].
  assert (Hn : 0 <= n < 2 ^ 49)
    by (pose proof (cancellations_in_le (to_period t) df); lia).
  split; [rewrite E; now apply heatmap_data_last|].
  split; [unfold v; pose proof (Z.div_mod (30 * n) 8);
          pose proof (Z.mod_pos_bound (30 * n) 8); lia|].
  split; [now apply scale_september_exact|].
  split; [exact Hcount|].
  intros i r c _ _ Ec.
  now rewrite <- !period_month_to_period, Ec.
Qed.

Lemma september_scaling_witness :
  heatmap_data (cancellations_by_month two_septembers_cleaned) = Ok [2; 1; 3].
Proof.
  destruct (september_scaling two_septembers_cleaned
              [(1661990400000000000, 2); (1672531200000000000, 1)]
              1693526400000000000 1)
    as [Hdata _].
  - vm_compute. reflexivity.
  - vm_compute. reflexivity.
  - rewrite Hdata. vm_compute. reflexivity.
Defined.

(** ** Runs of the script on the fixtures *)

(** The fraction of a scaled count is dropped, not rounded to nearest:
    3.75 becomes 3. *)
Example scale_september_truncates : scale_september 1 = Ok 3.
Proof. vm_compute. reflexivity. Qed.

(** A complete run: two cancellations in August, three in September. *)
Example run_september_records :
  run_main reference_parser september_records =
  (counts_report september_records_cleaned ++
   [ Print "Average subscription duration: 196.6 days";
     Print "Variance of subscription duration: 243.30";
     Print "Standard deviation of subscription duration: 15.60";
     Print rule;
     Histplot (values (column canceled_date september_records_cleaned)) 30;
     Show;
     Heatmap [2; 11] ["Aug 2023"; "Sep 2023"]%string;
     Show ], Ok tt).
Proof. vm_compute. reflexivity. Qed.

(** Eight rows, one of them without a duration.  Each of the eight
    accumulators takes one value and they are added as a tree, so the sum
    of the squared deviations is not the one that adding them from left to
    right gives, which ends in ...095. *)
Example statistics_of_eight_rows :
  let duration :=
    combine (seq 0 8)
      [Some 248; None; Some 153; Some 63; Some 389; Some 164; Some 10; Some 236] in
  np_sum (squared_deviations (mean duration) duration)
    = S754_finite false 6529292728458094 (-36) /\
  var duration = S754_finite false 8705723637944125 (-39) /\
  format_fixed 1 (mean duration) = "180.4"%string /\
  format_fixed 2 (var duration) = "15835.62"%string /\
  format_fixed 2 (std duration) = "125.84"%string.
Proof. vm_compute. repeat split; reflexivity. Qed.

(** With no cancellation at all there is no bucket, and the run stops with
    an [IndexError] where it asks for the last one, after the histogram. *)
Lemma run_without_cancellation
    (parse : list Cell -> string -> option Z)
    (csv : list RawRow) (df : Frame Row) :
  clean_data parse (load_data csv) = Ok df ->
  (forall i r, In (i, r) df -> canceled_date r = None) ->
  snd (run_main parse csv) = Raise IndexError.
Proof.
  intros Hclean Hnone. rewrite (run_main_cleaned parse csv df Hclean).
  destruct (duration_without_cancellation df Hnone) as [d Hd].
  rewrite Hd. cbv zeta.
  assert (E : cancellations_by_month df = []).
  { unfold cancellations_by_month.
    assert (G : groupby_size (values (canceled_month df)) = []).
    { destruct (groupby_size (values (canceled_month df))) as [|[k n] g] eqn:Eg;
        [reflexivity|exfalso].
      destruct (grouped_spec df) as [_ [Hk _]]. rewrite Eg in Hk.
      destruct (proj1 (Hk k) (or_introl eq_refl)) as [i [r [t [Hin [Et _]]]]].
      rewrite (Hnone i r Hin) in Et. discriminate. }
    now rewrite G. }
  rewrite E. reflexivity.
Qed.

(** * Further properties of the script *)

(** ** Labels after cleaning *)

Lemma seq_sorted (a n : nat) : StronglySorted lt (seq a n).
Proof.
  revert a. induction n as [|n IH]; intros a; simpl; constructor; [apply IH|].
  apply Forall_forall. intros x Hx. apply in_seq in Hx. lia.
Qed.

Lemma drop_duplicates_from_sorted {A : Type}
    (eq_dec : forall a b : A, {a = b} + {a <> b})
    (seen : list A) (df : Frame A) :
  StronglySorted lt (index df) ->
  StronglySorted lt (index (drop_duplicates_from eq_dec seen df)).
Proof.
  revert seen. induction df as [|[j a] df IH]; intros seen H; simpl.
  - constructor.
  - inversion H as [|x l Hs Hall]; subst.
    destruct (in_dec eq_dec a seen); [now apply IH|].
    simpl. constructor; [now apply IH|].
    rewrite Forall_forall in *. intros i Hi. apply Hall.
    unfold index in *. apply in_map_iff in Hi. destruct Hi as [[i' b] [E Hi]].
    simpl in E. subst i'. apply drop_duplicates_from_In in Hi.
    apply in_map_iff. exists (i, b). tauto.
Qed.

Lemma drop_duplicates_from_length {A : Type}
    (eq_dec : forall a b : A, {a = b} + {a <> b})
    (seen : list A) (df : Frame A) :
  (List.length (drop_duplicates_from eq_dec seen df) <= List.length df)%nat.
Proof.
  revert seen. induction df as [|[j a] df IH]; intros seen; simpl; [lia|].
  destruct (in_dec eq_dec a seen); simpl.
  - specialize (IH seen). lia.
  - specialize (IH (a :: seen)). lia.
Qed.

Lemma drop_duplicates_from_full {A : Type}
    (eq_dec : forall a b : A, {a = b} + {a <> b})
    (seen : list A) (df : Frame A) :
  List.length (drop_duplicates_from eq_dec seen df) = List.length df ->
  drop_duplicates_from eq_dec seen df = df.
Proof.
  revert seen. induction df as [|[j a] df IH]; intros seen H; simpl in *.
  - reflexivity.
  - destruct (in_dec eq_dec a seen); simpl in H.
    + pose proof (drop_duplicates_from_length eq_dec seen df). lia.
    + f_equal. apply IH. lia.
Qed.

Lemma In_load_data (csv : list RawRow) (i : nat) (r : RawRow) :
  In (i, r) (load_data csv) <-> nth_error csv i = Some r.
Proof.
  unfold load_data.
  assert (G : forall (l : list RawRow) (a : nat),
             In (i, r) (combine (seq a (List.length l)) l) <->
             (a <= i)%nat /\ nth_error l (i - a) = Some r).
  { induction l as [|x l IH]; intros a; simpl.
    - split; [contradiction|]. intros [_ H]. destruct (i - a)%nat; discriminate.
    - rewrite IH. split.
      + intros [E|[Ha Hn]].
        * injection E as -> ->. rewrite Nat.sub_diag. split; [lia|reflexivity].
        * split; [lia|]. replace (i - a)%nat with (S (i - S a)) by lia.
          exact Hn.
      + intros [Ha Hn]. destruct (Nat.eq_dec a i) as [->|Hne].
        * rewrite Nat.sub_diag in Hn. simpl in Hn. injection Hn as ->. now left.
        * right. split; [lia|].
          replace (i - a)%nat with (S (i - S a)) in Hn by lia. exact Hn. }
  rewrite G, Nat.sub_0_r. split; [tauto|]. intros H. split; [lia|exact H].
Qed.

(** X1.  The labels of the cleaned table are the file positions of the
    records kept: they come in ascending order, without repetition, all
    below the number of records; no record is dropped exactly when the
    file holds no record twice. *)
Theorem cleaned_labels
    (parse : list Cell -> string -> option Z)
    (csv : list RawRow) (df : Frame Row) :
  clean_data parse (load_data csv) = Ok df ->
  StronglySorted lt (index df) /\
  (forall i, In i (index df) -> (i < List.length csv)%nat) /\
  (List.length df <= List.length csv)%nat /\
  (List.length df = List.length csv <-> NoDup csv).
Proof.
  intros H. pose proof (clean_data_index parse _ _ H) as Hi.
  pose proof (clean_data_Ok parse _ _ H) as Ht. cbv zeta in Ht.
  set (kept := drop_duplicates RawRow_eq_dec (load_data csv)) in *.
  assert (Hlen : List.length df = List.length kept).
  { rewrite Ht. apply length_column. }
  assert (Hload : List.length (load_data csv) = List.length csv).
  { rewrite <- (values_load_data csv) at 2. unfold values.
    now rewrite length_map. }
  split; [|split; [|split]].
  - rewrite Hi. apply drop_duplicates_from_sorted.
    rewrite index_load_data. apply seq_sorted.
  - intros i Hin. rewrite Hi in Hin. unfold index in Hin.
    apply in_map_iff in Hin. destruct Hin as [[j r] [E Hin]]. simpl in E.
    subst j. apply drop_duplicates_from_In in Hin. destruct Hin as [Hin _].
    apply In_load_data in Hin. apply nth_error_Some. congruence.
  - rewrite Hlen, <- Hload. apply drop_duplicates_from_length.
  - rewrite Hlen, <- Hload. split.
    + intros E. apply drop_duplicates_from_full in E.
      rewrite <- (values_load_data csv). fold kept in E.
      apply (drop_duplicates_fixed RawRow_eq_dec). exact E.
    + intros Hnd. rewrite <- (values_load_data csv) in Hnd.
      apply (drop_duplicates_fixed RawRow_eq_dec) in Hnd.
      unfold kept. now rewrite Hnd.
Qed.

Lemma cleaned_labels_witness :
  index five_records_cleaned = [0; 2; 3]%nat /\
  StronglySorted lt (index five_records_cleaned) /\
  ~ NoDup five_records.
Proof.
  destruct (cleaned_labels reference_parser five_records five_records_cleaned
              clean_five_records) as [Hs [_ [_ Hiff]]].
  split; [reflexivity|]. split; [exact Hs|].
  intros Hnd. apply Hiff in Hnd. discriminate.
Defined.

Lemma drop_duplicates_from_first {A : Type}
    (eq_dec : forall a b : A, {a = b} + {a <> b})
    (seen : list A) (df : Frame A) (i : nat) (r : A) :
  In (i, r) (drop_duplicates_from eq_dec seen df) ->
  exists pre post, df = pre ++ (i, r) :: post /\ ~ In r (values pre).
Proof.
  revert seen. induction df as [|[j a] df IH]; intros seen H; simpl in H.
  - contradiction.
  - destruct (in_dec eq_dec a seen) as [Hin|Hnin].
    + destruct (IH seen H) as [pre [post [E Hpre]]].
      exists ((j, a) :: pre), post. split; [simpl; now rewrite E|].
      simpl. intros [->|Hr]; [|contradiction].
      apply drop_duplicates_from_In in H. tauto.
    + destruct H as [E|H].
      * injection E as -> ->. exists [], df. split; [reflexivity|]. simpl. tauto.
      * destruct (IH (a :: seen) H) as [pre [post [E Hpre]]].
        exists ((j, a) :: pre), post. split; [simpl; now rewrite E|].
        simpl. intros [->|Hr]; [|contradiction].
        apply drop_duplicates_from_In in H. simpl in H. tauto.
Qed.

(** X2.  Of several equal records the first one is the one kept: a row of
    the cleaned table labelled [i] is the record at position [i] of the
    file with its dates read, and no earlier record of the file equals
    that one. *)
Theorem first_occurrence_kept
    (parse : list Cell -> string -> option Z)
    (csv : list RawRow) (df : Frame Row) (i : nat) (row : Row) :
  clean_data parse (load_data csv) = Ok df ->
  In (i, row) df ->
  let kept := drop_duplicates RawRow_eq_dec (load_data csv) in
  exists r,
    nth_error csv i = Some r /\
    row = parsed parse (values (column raw_created_date kept))
                       (values (column raw_canceled_date kept)) r /\
    forall j, (j < i)%nat -> nth_error csv j <> Some r.
Proof.
  intros H Hin kept.
  pose proof (clean_data_Ok parse _ _ H) as Ht. cbv zeta in Ht. fold kept in Ht.
  rewrite Ht in Hin. unfold column in Hin. apply in_map_iff in Hin.
  destruct Hin as [[i' r] [E Hin]]. simpl in E. injection E as -> <-.
  exists r.
  destruct (drop_duplicates_from_first RawRow_eq_dec [] _ _ _ Hin)
    as [pre [post [E Hpre]]].
  assert (Hir : In (i, r) (load_data csv))
    by (rewrite E; apply in_or_app; simpl; auto).
  split; [now apply In_load_data|]. split; [reflexivity|].
  intros j Hj Hnth. apply In_load_data in Hnth.
  pose proof (seq_sorted 0 (List.length csv)) as Hs.
  rewrite <- index_load_data, E in Hs. unfold index in Hs.
  rewrite map_app in Hs. simpl in Hs.
  rewrite E in Hnth. apply in_app_or in Hnth. destruct Hnth as [Hp|[Eq|Hp]].
  - apply Hpre. apply In_values. now exists j.
  - injection Eq as Eq. lia.
  - assert (Hlater : forall x, In x (map fst post) -> (i < x)%nat).
    { clear - Hs. induction (map fst pre) as [|a l IH]; simpl in Hs.
      - inversion Hs as [|x l' _ Hall]; subst.
        now rewrite Forall_forall in Hall.
      - inversion Hs; subst. auto. }
    assert (Hj' : In j (map fst post)) by (apply in_map_iff; now exists (j, r)).
    specialize (Hlater j Hj'). lia.
Qed.

Lemma first_occurrence_kept_witness :
  nth_error five_records 2 = nth_error five_records 4 /\
  In 2%nat (index five_records_cleaned) /\
  ~ In 4%nat (index five_records_cleaned).
Proof.
  destruct (first_occurrence_kept reference_parser five_records
              five_records_cleaned 2
              (mkRow (Some 1672876800000000000) None [])
              clean_five_records) as [r [Hr _]].
  - unfold five_records_cleaned. simpl. auto.
  - split; [reflexivity|]. split.
    + unfold five_records_cleaned. simpl. auto.
    + unfold five_records_cleaned. simpl. intros [E|[E|[E|[]]]]; discriminate.
Defined.

(** X3.  Cleaning a table whose dates are read already never raises: it only
    removes identical rows.  What it returns has no two identical rows, and
    cleaning that once more changes nothing. *)
Theorem recleaning_settles
    (parse : list Cell -> string -> option Z) (t : Frame Row) :
  let t' := drop_duplicates Row_eq_dec t in
  clean_data parse (reload t) = Ok t' /\
  NoDup (values t') /\
  (forall row, In row (values t') <-> In row (values t)) /\
  clean_data parse (reload t') = Ok t'.
Proof.
  intros t'. split; [apply clean_data_reload|].
  split; [apply drop_duplicates_NoDup|].
  split; [intros row; apply drop_duplicates_In|].
  rewrite clean_data_reload. f_equal.
  apply drop_duplicates_fixed. apply drop_duplicates_NoDup.
Qed.

(** ** Deduplication comes first *)

(** C9.  Duplicates are removed from the rows as loaded, before any date
    is read.  The rows kept are the raw rows without repetition: every raw
    row of the input is kept exactly once, so rows are dropped exactly when
    the input repeats a raw row.  The cleaned table is these rows with
    their dates read, row for row.  So two rows of the input that differ as
    loaded are both kept, and when they read as the same row the cleaned
    table holds that row at least twice. *)
Theorem duplicates_removed_before_parsing
    (parse : list Cell -> string -> option Z)
    (df : Frame RawRow) (t : Frame Row) (r1 r2 : RawRow) :
  clean_data parse df = Ok t ->
  In r1 (values df) -> In r2 (values df) -> r1 <> r2 ->
  let kept := drop_duplicates RawRow_eq_dec df in
  let created := values (column raw_created_date kept) in
  let canceled := values (column raw_canceled_date kept) in
  parsed parse created canceled r1 = parsed parse created canceled r2 ->
  NoDup (values kept) /\
  (forall r, In r (values kept) <-> In r (values df)) /\
  (forall r, In r (values df) ->
     count_occ RawRow_eq_dec (values kept) r = 1%nat) /\
  (List.length kept <= List.length df)%nat /\
  (List.length kept = List.length df <-> NoDup (values df)) /\
  t = column (parsed parse created canceled) kept /\
  List.length t = List.length kept /\
  In r1 (values kept) /\ In r2 (values kept) /\
  (count_occ Row_eq_dec (values t) (parsed parse created canceled r1) >= 2)%nat.
Proof.
  intros H H1 H2 Hne kept created canceled Hsame.
  pose proof (clean_data_Ok parse df t H) as Ht. cbv zeta in Ht.
  fold kept in Ht. fold created in Ht. fold canceled in Ht.
  pose proof (drop_duplicates_NoDup RawRow_eq_dec df) as Hnd. fold kept in Hnd.
  assert (Hin : forall r, In r (values kept) <-> In r (values df))
    by (intros r; apply drop_duplicates_In).
  split; [exact Hnd|]. split; [exact Hin|].
  split.
  { intros r Hr. apply Hin in Hr.
    apply (NoDup_count_occ' RawRow_eq_dec); assumption. }
  split; [apply drop_duplicates_from_length|].
  split.
  { split; intros E.
    - apply (drop_duplicates_fixed RawRow_eq_dec).
      now apply drop_duplicates_from_full.
    - apply (drop_duplicates_fixed RawRow_eq_dec) in E.
      unfold kept. now rewrite E. }
  split; [exact Ht|].
  split; [rewrite Ht; apply length_column|].
  apply Hin in H1. apply Hin in H2.
  split; [exact H1|]. split; [exact H2|].
  rewrite Ht, values_column.
  now apply count_occ_map_twice with (b := r2).
Qed.

Lemma duplicates_removed_before_parsing_witness :
  List.length same_day_repeated_cleaned = 2%nat /\
  (count_occ Row_eq_dec (values same_day_repeated_cleaned)
     (mkRow (Some 1672876800000000000%Z) (Some 1677628800000000000%Z) [])
   >= 2)%nat.
Proof.
  pose proof (duplicates_removed_before_parsing reference_parser
                (load_data same_day_repeated) same_day_repeated_cleaned
                (record "01/05/2023" "03/01/2023")
                (record "1/5/2023" "3/1/2023")
                clean_same_day_repeated) as H.
  cbv zeta in H.
  destruct H as [_ [_ [_ [_ [_ [_ [Hlen [_ [_ Hcount]]]]]]]]].
  - left. reflexivity.
  - right. left. reflexivity.
  - discriminate.
  - vm_compute. reflexivity.
  - split.
    + rewrite Hlen. vm_compute. reflexivity.
    + vm_compute in Hcount. vm_compute. exact Hcount.
Defined.

(** ** The time span printed first *)

Lemma fold_left_min_spec (l : list Z) (a : Z) :
  In (fold_left Z.min l a) (a :: l) /\
  forall x, In x (a :: l) -> fold_left Z.min l a <= x.
Proof.
  revert a. induction l as [|b l IH]; intros a; simpl.
  - split; [auto|]. intros x [<-|[]]. lia.
  - destruct (IH (Z.min a b)) as [Hin Hle]. split.
    + destruct Hin as [E|Hin]; [|auto].
      rewrite <- E. destruct (Z.min_spec a b) as [[_ ->]|[_ ->]]; auto.
    + intros x Hx.
      assert (Hm : fold_left Z.min l (Z.min a b) <= Z.min a b)
        by (apply Hle; now left).
      destruct Hx as [<-|[<-|Hx]]; [lia | lia |].
      apply Hle. now right.
Qed.

Lemma fold_left_max_spec (l : list Z) (a : Z) :
  In (fold_left Z.max l a) (a :: l) /\
  forall x, In x (a :: l) -> x <= fold_left Z.max l a.
Proof.
  revert a. induction l as [|b l IH]; intros a; simpl.
  - split; [auto|]. intros x [<-|[]]. lia.
  - destruct (IH (Z.max a b)) as [Hin Hle]. split.
    + destruct Hin as [E|Hin]; [|auto].
      rewrite <- E. destruct (Z.max_spec a b) as [[_ ->]|[_ ->]]; auto.
    + intros x Hx.
      assert (Hm : Z.max a b <= fold_left Z.max l (Z.max a b))
        by (apply Hle; now left).
      destruct Hx as [<-|[<-|Hx]]; [lia | lia |].
      apply Hle. now right.
Qed.

(** X4.  The first two lines printed carry the earliest and the latest
    start date present in the cleaned table: both occur in the column, every
    present start date lies between them, and when no start date is present
    both print as NaT. *)
Theorem time_span_reported
    (parse : list Cell -> string -> option Z)
    (csv : list RawRow) (df : Frame Row) :
  clean_data parse (load_data csv) = Ok df ->
  let created := column created_date df in
  let present := values (dropna created) in
  nth_error (fst (run_main parse csv)) 0 =
    Some (Print ("Dataset tiemframe start: " ++
                 str_of_timestamp (series_min created))) /\
  nth_error (fst (run_main parse csv)) 1 =
    Some (Print ("Dataset timeframe end: " ++
                 str_of_timestamp (series_max created))) /\
  (present = [] ->
   str_of_timestamp (series_min created) = "NaT"%string /\
   str_of_timestamp (series_max created) = "NaT"%string) /\
  (present <> [] ->
   exists lo hi,
     series_min created = Some lo /\ series_max created = Some hi /\
     In lo present /\ In hi present /\
     forall x, In x present -> lo <= x <= hi).
Proof.
  intros H created present.
  destruct (run_main_counts parse csv df H) as [rest ->].
  split; [reflexivity|]. split; [reflexivity|].
  unfold series_min, series_max. fold present.
  destruct present as [|a l].
  - split; [split; reflexivity|]. intros E. now contradiction E.
  - split; [discriminate|]. intros _.
    destruct (fold_left_min_spec l a) as [Hmin Hle].
    destruct (fold_left_max_spec l a) as [Hmax Hge].
    exists (fold_left Z.min l a), (fold_left Z.max l a).
    repeat split; auto.
Qed.

Lemma time_span_reported_witness :
  nth_error (fst (run_main reference_parser september_records)) 0 =
    Some (Print "Dataset tiemframe start: 2023-01-01 00:00:00") /\
  nth_error (fst (run_main reference_parser september_records)) 1 =
    Some (Print "Dataset timeframe end: 2023-04-01 00:00:00").
Proof.
  destruct (time_span_reported reference_parser september_records
              september_records_cleaned clean_september_records)
    as [Hstart [Hend _]].
  split; [exact Hstart | exact Hend].
Defined.

(** ** How a run ends *)

Lemma mapM_Raise {A B : Type} (f : A -> result B) (l : list A) (e : exn) :
  (forall a e', In a l -> f a = Raise e' -> e' = e) ->
  (exists a, In a l /\ f a = Raise e) ->
  mapM f l = Raise e.
Proof.
  induction l as [|a l IH]; intros Hall [x [Hx Hfx]]; [contradiction|].
  simpl. destruct (f a) as [b|e'] eqn:Ea; simpl.
  - destruct Hx as [->|Hx]; [congruence|].
    rewrite IH; [reflexivity | |].
    + intros a' e'' Hin. apply Hall. now right.
    + now exists x.
  - f_equal. apply (Hall a e'); auto. now left.
Qed.

Lemma df_has_cancellation (df : Frame Row) :
  (exists i r c, In (i, r) df /\ canceled_date r = Some c) \/
  (forall i r, In (i, r) df -> canceled_date r = None).
Proof.
  induction df as [|[i r] df IH].
  - right. intros i r [].
  - destruct (canceled_date r) as [c|] eqn:Ec.
    + left. exists i, r, c. split; [now left | exact Ec].
    + destruct IH as [[j [r' [c [Hin Ec']]]]|Hnone].
      * left. exists j, r', c. split; [now right | exact Ec'].
      * right. intros j r' [E|Hin]; [now injection E as <- <- | eauto].
Qed.

Lemma by_month_empty (df : Frame Row) :
  cancellations_by_month df = [] <->
  forall i r, In (i, r) df -> canceled_date r = None.
Proof.
  destruct (grouped_spec df) as [_ [Hk _]].
  unfold cancellations_by_month. split.
  - intros E i r Hin. destruct (canceled_date r) as [c|] eqn:Ec; [|reflexivity].
    exfalso. apply map_eq_nil in E.
    assert (Hc : In (to_period c)
                   (map fst (groupby_size (values (canceled_month df)))))
      by (apply Hk; now exists i, r, c).
    rewrite E in Hc. exact Hc.
  - intros Hnone.
    destruct (groupby_size (values (canceled_month df))) as [|[k n] g] eqn:Eg;
      [reflexivity|exfalso].
    destruct (proj1 (Hk k) (or_introl eq_refl)) as [i [r [t [Hin [Et _]]]]].
    rewrite (Hnone i r Hin) in Et. discriminate.
Qed.

(** X5.  On a cleaned table whose date differences fit the timedelta range
    and which has fewer than [2^49] rows, the run ends in one of two ways.
    It completes exactly when some row has a cancellation date, having
    shown the ten lines, the histogram and then the heatmap, in this order;
    otherwise it stops with an [IndexError] before any heatmap is drawn. *)
Theorem run_completes_iff_cancellation
    (parse : list Cell -> string -> option Z)
    (csv : list RawRow) (df : Frame Row) :
  clean_data parse (load_data csv) = Ok df ->
  (forall i r c t, In (i, r) df ->
     canceled_date r = Some c -> created_date r = Some t ->
     int64_min < c - t <= int64_max) ->
  Z.of_nat (List.length df) < 2 ^ 49 ->
  (snd (run_main parse csv) = Ok tt <->
   exists i r c, In (i, r) df /\ canceled_date r = Some c) /\
  (snd (run_main parse csv) <> Ok tt ->
   snd (run_main parse csv) = Raise IndexError /\
   forall data labels, ~ In (Heatmap data labels) (fst (run_main parse csv))) /\
  (snd (run_main parse csv) = Ok tt ->
   exists duration data,
     subscription_duration df = Ok duration /\
     heatmap_data (cancellations_by_month df) = Ok data /\
     fst (run_main parse csv) =
     counts_report df ++ duration_report duration ++
     [ Histplot (values (column canceled_date df)) 30; Show;
       Heatmap data (map (fun kc => strftime_b_Y (fst kc))
                         (cancellations_by_month df));
       Show ]).
Proof.
  intros Hclean Hrange Hlen.
  rewrite (run_main_cleaned parse csv df Hclean).
  rewrite (subscription_duration_in_range df Hrange). cbv zeta.
  set (duration := column _ df).
  destruct (cancellations_by_month df) as [|b l] eqn:Eb.
  - assert (Hnone := proj1 (by_month_empty df) Eb).
    simpl. split; [|split].
    + split; [discriminate|]. intros [i [r [c [Hin Ec]]]].
      rewrite (Hnone i r Hin) in Ec. discriminate.
    + intros _. split; [reflexivity|]. intros data labels Hin.
      repeat (destruct Hin as [Hin|Hin]; [discriminate|]). exact Hin.
    + discriminate.
  - destruct (exists_last (l := b :: l)) as [front [[t n] E]]; [discriminate|].
    assert (Hin : In (t, n) (cancellations_by_month df))
      by (rewrite Eb, E; apply in_or_app; simpl; auto).
    destruct (by_month_In df t n Hin) as [_ [Hn1 Hcount]].
    assert (Hn : 0 <= n < 2 ^ 49)
      by (pose proof (cancellations_in_le (to_period t) df); lia).
    rewrite E, (heatmap_data_last front t n Hn). rewrite <- E, <- Eb.
    simpl snd. simpl fst. split; [|split].
    + split; [intros _|reflexivity].
      destruct (df_has_cancellation df) as [Hsome|Hnone]; [exact Hsome|].
      apply by_month_empty in Hnone. rewrite Hnone in Eb. discriminate.
    + intros Hne. now contradiction Hne.
    + intros _. exists duration. eexists. split; [reflexivity|].
      split; [reflexivity|]. rewrite <- ?app_assoc. reflexivity.
Qed.

Lemma run_completes_iff_cancellation_witness :
  snd (run_main reference_parser september_records) = Ok tt /\
  snd (run_main reference_parser bad_end) = Raise IndexError.
Proof.
  split.
  - apply (run_completes_iff_cancellation reference_parser september_records
             september_records_cleaned clean_september_records).
    + unfold september_records_cleaned. intros i r c t Hin Ec Et.
      repeat (destruct Hin as [E|Hin];
              [injection E as <- <-; try discriminate;
               injection Ec as <-; injection Et as <-;
               unfold int64_min, int64_max; lia|]).
      contradiction.
    + vm_compute. reflexivity.
    + exists 0%nat, (mkRow (Some 1672531200000000000)
                           (Some 1691712000000000000) []),
             1691712000000000000.
      split; [left; reflexivity | reflexivity].
  - destruct (run_completes_iff_cancellation reference_parser bad_end
                bad_end_cleaned clean_bad_end) as [_ [Hstop _]].
    + unfold bad_end_cleaned. intros i r c t Hin Ec.
      destruct Hin as [E|[E|[]]]; injection E as <- <-; discriminate.
    + vm_compute. reflexivity.
    + apply Hstop. vm_compute. discriminate.
Defined.

(** X6.  When some row of the cleaned table has its two dates further apart
    than a timedelta can hold, the run stops with an [OverflowError] where
    the durations are computed: the six lines of the counts are on the
    console, and nothing else. *)
Theorem run_stops_on_duration_overflow
    (parse : list Cell -> string -> option Z)
    (csv : list RawRow) (df : Frame Row) :
  clean_data parse (load_data csv) = Ok df ->
  (exists i r c t, In (i, r) df /\
     canceled_date r = Some c /\ created_date r = Some t /\
     (c - t < int64_min \/ int64_max < c - t)) ->
  subscription_duration df = Raise OverflowError /\
  run_main parse csv = (counts_report df, Raise OverflowError).
Proof.
  intros Hclean [i [r [c [t [Hin [Ec [Et Hout]]]]]]].
  assert (Hd : subscription_duration df = Raise OverflowError).
  { unfold subscription_duration. apply mapM_Raise.
    - intros [j r'] e' _. simpl. unfold sub_datetime.
      destruct (canceled_date r') as [c'|]; [|discriminate].
      destruct (created_date r') as [t'|]; [|discriminate].
      destruct ((int64_min <? c' - t') && (c' - t' <=? int64_max));
        [discriminate|]. simpl. congruence.
    - exists (i, r). split; [exact Hin|]. simpl. unfold sub_datetime.
      rewrite Ec, Et.
      replace ((int64_min <? c - t) && (c - t <=? int64_max)) with false;
        [reflexivity|].
      symmetry. apply andb_false_iff. destruct Hout as [Hlo|Hhi].
      + left. apply Z.ltb_ge. lia.
      + right. apply Z.leb_gt. lia. }
  split; [exact Hd|].
  now rewrite (run_main_cleaned parse csv df Hclean), Hd.
Qed.

Lemma run_stops_on_duration_overflow_witness :
  run_main reference_parser far_apart =
  (counts_report far_apart_cleaned, Raise OverflowError).
Proof.
  apply (run_stops_on_duration_overflow reference_parser far_apart
           far_apart_cleaned clean_far_apart).
  exists 1%nat, (mkRow (Some (-8520336000000000000))
                       (Some 7258118400000000000) []),
         7258118400000000000, (-8520336000000000000).
  split; [right; left; reflexivity|].
  split; [reflexivity|]. split; [reflexivity|].
  right. unfold int64_max. lia.
Defined.

(** ** What the buckets add up to *)

Lemma sum_counts_count_into (k : Z) (acc : list (Z * Z)) :
  sum_counts (count_into k acc) = sum_counts acc + 1.
Proof.
  unfold sum_counts.
  induction acc as [|[k0 n] acc IH]; [reflexivity|].
  cbn [count_into].
  destruct (k <? k0); [cbn [fold_right snd]; lia|].
  destruct (k =? k0); cbn [fold_right snd]; [lia|]. rewrite IH. lia.
Qed.

Lemma sum_counts_fold (keys : list (option Z)) (acc : list (Z * Z)) :
  sum_counts (fold_left (fun acc k => match k with
                                      | Some k => count_into k acc
                                      | None => acc
                                      end) keys acc)
  = sum_counts acc +
    Z.of_nat (List.length (filter (fun o => match o with
                                            | Some _ => true
                                            | None => false
                                            end) keys)).
Proof.
  revert acc. induction keys as [|[k|] keys IH]; intros acc.
  - simpl. lia.
  - cbn [fold_left filter List.length]. rewrite IH, sum_counts_count_into.
    rewrite Nat2Z.inj_succ. lia.
  - cbn [fold_left filter]. apply IH.
Qed.

(** X7.  Every row with a cancellation date is counted in exactly one
    bucket: the counts of the buckets add up to the number of rows whose
    [canceled_date] is present, the number printed as current
    subscribers. *)
Theorem bucket_counts_add_up
    (parse : list Cell -> string -> option Z)
    (csv : list RawRow) (df : Frame Row) :
  clean_data parse (load_data csv) = Ok df ->
  let present := List.length (dropna (column canceled_date df)) in
  sum_counts (cancellations_by_month df) = Z.of_nat present /\
  nth_error (fst (run_main parse csv)) 4 =
    Some (Print ("Current subscribers: " ++ str_of_nat present)).
Proof.
  intros H present. split.
  - unfold cancellations_by_month, groupby_size.
    assert (Hmap : forall b : list (Z * Z),
               sum_counts (map (fun kc => (to_timestamp (fst kc), snd kc)) b)
               = sum_counts b).
    { induction b as [|[k n] b IH]; simpl; [reflexivity | now rewrite IH]. }
    rewrite Hmap, sum_counts_fold. cbn [sum_counts fold_right].
    unfold present, canceled_month, column, values. clear.
    induction df as [|[i r] df IH]; [reflexivity|].
    cbn [map fst snd filter dropna].
    destruct (canceled_date r); cbn [option_map List.length];
      rewrite ?Nat2Z.inj_succ; lia.
  - destruct (run_main_counts parse csv df H) as [rest ->]. reflexivity.
Qed.

Lemma bucket_counts_add_up_witness :
  sum_counts (cancellations_by_month september_records_cleaned) = 5 /\
  nth_error (fst (run_main reference_parser september_records)) 4 =
    Some (Print "Current subscribers: 5").
Proof.
  destruct (bucket_counts_add_up reference_parser september_records
              september_records_cleaned clean_september_records)
    as [Hsum Hline].
  split; [exact Hsum | exact Hline].
Defined.

(** ** Cells and labels of the heatmap *)

Lemma heatmap_data_length (b : list (Z * Z)) (data : list Z) :
  heatmap_data b = Ok data -> List.length data = List.length b.
Proof.
  destruct b as [|x l].
  - discriminate.
  - destruct (exists_last (l := x :: l)) as [front [[t n] ->]]; [discriminate|].
    unfold heatmap_data. rewrite !map_app. simpl map.
    rewrite iloc_last_app. cbn [bind].
    destruct (month_of t =? 9).
    + rewrite iloc_last_app. cbn [bind].
      destruct (scale_september n) as [v|e]; [|discriminate]. cbn [bind].
      destruct (to_int64 v) as [v'|e]; [|discriminate]. cbn [bind].
      rewrite set_last_app. intros E. injection E as <-.
      now rewrite !length_app, length_map.
    + intros E. injection E as <-.
      now rewrite !length_app, length_map.
Qed.

Lemma strftime_to_timestamp (p : Z) :
  strftime_b_Y (to_timestamp p) =
  (month_abbr (period_month p) ++ " " ++ pad0 4 (period_year p))%string.
Proof.
  unfold strftime_b_Y. now rewrite month_of_to_timestamp, year_of_to_timestamp.
Qed.

(** X8.  Whenever the heatmap is drawn it has as many tick labels as
    cells, one per month in which something was cancelled, and the label
    of a bucket is the abbreviated name of its month followed by its
    year. *)
Theorem heatmap_labels_match_cells (df : Frame Row) (data : list Z) :
  heatmap_data (cancellations_by_month df) = Ok data ->
  let grouped := groupby_size (values (canceled_month df)) in
  let labels := map (fun kc => strftime_b_Y (fst kc))
                    (cancellations_by_month df) in
  List.length labels = List.length data /\
  List.length data = List.length grouped /\
  labels = map (fun kc => (month_abbr (period_month (fst kc)) ++ " " ++
                           pad0 4 (period_year (fst kc)))%string) grouped.
Proof.
  intros H grouped labels. apply heatmap_data_length in H.
  unfold labels. rewrite length_map. split; [now rewrite H|].
  split.
  - rewrite H. unfold cancellations_by_month. apply length_map.
  - unfold cancellations_by_month. fold grouped. rewrite map_map.
    apply map_ext. intros [k n]. simpl. apply strftime_to_timestamp.
Qed.

Lemma heatmap_labels_match_cells_witness :
  map (fun kc => strftime_b_Y (fst kc))
      (cancellations_by_month two_septembers_cleaned)
  = ["Sep 2022"; "Jan 2023"; "Sep 2023"]%string.
Proof.
  destruct (heatmap_labels_match_cells two_septembers_cleaned [2; 1; 3])
    as [_ [_ Hlabels]].
  - vm_compute. reflexivity.
  - rewrite Hlabels. vm_compute. reflexivity.
Defined.

(** ** The month of a date *)

Lemma civil_round_trip (z : Z) :
  let '(y, m, d) := civil_from_days z in
  days_from_civil y m d = z /\ 1 <= d.
Proof.
  unfold civil_from_days, days_from_civil. cbv zeta.
  set (z' := z + 719468).
  set (era := z' / 146097).
  set (doe := z' - era * 146097).
  assert (Hdoe : 0 <= doe < 146097).
  { unfold doe, era. pose proof (Z.mod_pos_bound z' 146097 eq_refl) as Hb.
    rewrite Z.mod_eq in Hb by discriminate. lia. }
  set (yoe := (doe - doe / 1460 + doe / 36524 - doe / 146096) / 365).
  set (doy := doe - (365 * yoe + yoe / 4 - yoe / 100)).
  set (mp := (5 * doy + 2) / 153).
  assert (Hy : 0 <= yoe < 400 /\ 0 <= doy <= 365 /\ 0 <= mp < 12 /\
               1 <= doy - (153 * mp + 2) / 5 + 1).
  { unfold mp, doy, yoe. Z.div_mod_to_equations; lia. }
  destruct Hy as [Hyoe [Hdoy [Hmp Hd]]].
  split; [|exact Hd].
  destruct (Z.ltb_spec mp 10);
  [ destruct (Z.leb_spec (mp + 3) 2); destruct (Z.ltb_spec 2 (mp + 3)); try lia
  | destruct (Z.leb_spec (mp - 9) 2); destruct (Z.ltb_spec 2 (mp - 9)); try lia ].
  - replace (mp + 3 - 3) with mp by lia.
    replace ((yoe + era * 400) / 400) with era by (Z.div_mod_to_equations; lia).
    replace (yoe + era * 400 - era * 400) with yoe by lia.
    unfold doy, doe, z' in *. lia.
  - replace (mp - 9 + 9) with mp by lia.
    replace ((yoe + era * 400 + 1 - 1) / 400) with era
      by (Z.div_mod_to_equations; lia).
    replace (yoe + era * 400 + 1 - 1 - era * 400) with yoe by lia.
    unfold doy, doe, z' in *. lia.
Qed.

Lemma next_month_after (z : Z) :
  let '(y, m, d) := civil_from_days z in
  z < days_from_civil (if m =? 12 then y + 1 else y)
                      (if m =? 12 then 1 else m + 1) 1.
Proof.
  unfold civil_from_days. cbv zeta.
  set (z' := z + 719468).
  set (era := z' / 146097).
  set (doe := z' - era * 146097).
  assert (Hdoe : 0 <= doe < 146097).
  { unfold doe, era. pose proof (Z.mod_pos_bound z' 146097 eq_refl) as Hb.
    rewrite Z.mod_eq in Hb by discriminate. lia. }
  set (yoe := (doe - doe / 1460 + doe / 36524 - doe / 146096) / 365).
  set (doy := doe - (365 * yoe + yoe / 4 - yoe / 100)).
  set (mp := (5 * doy + 2) / 153).
  assert (Hy : 0 <= yoe < 400 /\ 0 <= doy <= 365 /\ 0 <= mp < 12 /\
               153 * mp <= 5 * doy + 2 < 153 * mp + 153 /\
               (yoe < 399 ->
                doe < 365 * (yoe + 1) + (yoe + 1) / 4 - (yoe + 1) / 100)).
  { unfold mp, doy, yoe. Z.div_mod_to_equations; lia. }
  destruct Hy as [Hyoe [Hdoy [Hmp [Hmpd Hnext]]]].
  assert (Hz : z = era * 146097 + doe - 719468) by (unfold doe, z'; lia).
  assert (Hdoe' : doe = doy + (365 * yoe + yoe / 4 - yoe / 100))
    by (unfold doy; lia).
  clearbody mp doy yoe doe era. clear z'.
  unfold days_from_civil. cbv zeta.
  destruct (Z.ltb_spec mp 10);
    [ destruct (Z.eqb_spec (mp + 3) 12); destruct (Z.leb_spec (mp + 3) 2)
    | destruct (Z.eqb_spec (mp - 9) 12); destruct (Z.leb_spec (mp - 9) 2) ];
    try lia.
  all: match goal with
       | |- context [if ?a <=? 2 then _ else _] => destruct (Z.leb_spec a 2)
       end; try lia.
  all: match goal with
       | |- context [if 2 <? ?a then _ else _] => destruct (Z.ltb_spec 2 a)
       end; try lia.
  all: Z.div_mod_to_equations; lia.
Qed.

Lemma days_from_civil_day (y m d : Z) :
  days_from_civil y m d = days_from_civil y m 1 + (d - 1).
Proof. unfold days_from_civil. cbv zeta. lia. Qed.

Lemma month_start_le (t : Z) : to_timestamp (to_period t) <= t.
Proof.
  unfold to_timestamp.
  rewrite period_year_to_period, period_month_to_period.
  unfold year_of, month_of.
  pose proof (civil_round_trip (t / ns_per_day)) as H.
  destruct (civil_from_days (t / ns_per_day)) as [[y m] d]. cbn [fst snd].
  destruct H as [H Hd]. rewrite days_from_civil_day in H.
  pose proof (Z.mul_div_le t ns_per_day ns_per_day_pos) as Hle.
  apply Z.le_trans with (t / ns_per_day * ns_per_day); [|lia].
  apply Z.mul_le_mono_nonneg_r; [discriminate | lia].
Qed.

Lemma next_period (y m : Z) :
  1 <= m <= 12 ->
  period_year (period_of_ym y m + 1) = (if m =? 12 then y + 1 else y) /\
  period_month (period_of_ym y m + 1) = (if m =? 12 then 1 else m + 1).
Proof.
  intros Hm. unfold period_year, period_month, period_of_ym.
  destruct (Z.eqb_spec m 12); Z.div_mod_to_equations; lia.
Qed.

Lemma next_month_start_gt (t : Z) : t < to_timestamp (to_period t + 1).
Proof.
  unfold to_timestamp, to_period.
  destruct (next_period (year_of t) (month_of t) (month_of_range t))
    as [-> ->].
  unfold year_of, month_of.
  pose proof (next_month_after (t / ns_per_day)) as H.
  destruct (civil_from_days (t / ns_per_day)) as [[y m] d]. cbn [fst snd].
  set (next := days_from_civil _ _ 1) in *.
  pose proof (Z.mod_pos_bound t ns_per_day ns_per_day_pos) as Hmod.
  pose proof (Z.div_mod t ns_per_day) as Hdiv.
  assert (Hstep : (t / ns_per_day + 1) * ns_per_day <= next * ns_per_day).
  { apply Z.mul_le_mono_nonneg_r; [discriminate | lia]. }
  lia.
Qed.

Lemma to_timestamp_le (p q : Z) : p <= q -> to_timestamp p <= to_timestamp q.
Proof.
  intros H. destruct (Z.eq_dec p q) as [-> | Hne]; [lia|].
  apply Z.lt_le_incl, to_timestamp_lt. lia.
Qed.

Lemma to_period_interval (t p : Z) :
  to_period t = p <-> to_timestamp p <= t < to_timestamp (p + 1).
Proof.
  split.
  - intros <-. split; [apply month_start_le | apply next_month_start_gt].
  - intros [Hlo Hhi].
    pose proof (month_start_le t) as Hlo'.
    pose proof (next_month_start_gt t) as Hhi'.
    destruct (Z.lt_trichotomy (to_period t) p) as [Hlt | [E | Hgt]].
    + pose proof (to_timestamp_le (to_period t + 1) p). lia.
    + exact E.
    + pose proof (to_timestamp_le (p + 1) (to_period t)). lia.
Qed.

(** X9.  A month bucket is a calendar month.  A date falls in the period
    [p] exactly when it lies between the first instant of that month
    (included), which is the timestamp the bucket is labelled with, and the
    first instant of the next month (excluded); so later dates never fall
    in earlier periods, and the count of every bucket is the number of rows
    cancelled from its label on and before the start of the following
    month. *)
Theorem bucket_is_calendar_month (df : Frame Row) :
  (forall t p, to_period t = p <->
               to_timestamp p <= t < to_timestamp (p + 1)) /\
  (forall t1 t2, t1 <= t2 -> to_period t1 <= to_period t2) /\
  (forall ts n, In (ts, n) (cancellations_by_month df) ->
     let next := to_timestamp (to_period ts + 1) in
     ts < next /\
     n = Z.of_nat (List.length (filter (fun ir =>
           match canceled_date (snd ir) with
           | Some c => (ts <=? c) && (c <? next)
           | None => false
           end) df))).
Proof.
  split; [exact to_period_interval|]. split.
  - intros t1 t2 H.
    destruct (Z.le_gt_cases (to_period t1) (to_period t2)) as [Hle|Hgt];
      [exact Hle|].
    pose proof (month_start_le t1). pose proof (next_month_start_gt t2).
    pose proof (to_timestamp_le (to_period t2 + 1) (to_period t1)). lia.
  - intros ts n Hin next. apply by_month_In in Hin.
    destruct Hin as [Hts [_ ->]]. split.
    + unfold next. rewrite Hts at 1. apply to_timestamp_lt. lia.
    + unfold cancellations_in. f_equal. f_equal. apply filter_ext.
      intros [i r]. unfold canceled_in. cbn [snd].
      destruct (canceled_date r) as [c|]; [|reflexivity].
      destruct (Z.eqb_spec (to_period c) (to_period ts)) as [E|E].
      * apply to_period_interval in E. rewrite <- Hts in E. fold next in E.
        symmetry. apply andb_true_iff. split; [apply Z.leb_le | apply Z.ltb_lt]; lia.
      * symmetry. apply andb_false_iff.
        destruct (Z.leb_spec ts c) as [Hlo|Hlo]; [|now left].
        destruct (Z.ltb_spec c next) as [Hhi|Hhi]; [|now right].
        exfalso. apply E. apply to_period_interval.
        rewrite <- Hts. fold next. lia.
Qed.

Lemma bucket_is_calendar_month_witness :
  to_period 1691712000000000000 = 643 /\
  1690848000000000000 <= 1691712000000000000 < 1693526400000000000.
Proof.
  destruct (bucket_is_calendar_month september_records_cleaned) as [H _].
  split; [vm_compute; reflexivity|].
  apply (H 1691712000000000000 643). vm_compute. reflexivity.
Defined.

(** ** Statistics of a single duration *)

(** Dividing a normal number by one leaves it as it is. *)
Lemma div_one (s : bool) (m : positive) (e : Z) :
  Zpos (digits2_pos m) = 53 -> -1073 <= e <= 971 ->
  Float64.div (S754_finite s m e) (Float64.of_Z 1) = S754_finite s m e.
Proof.
  intros Hm He.
  change (Float64.of_Z 1) with (S754_finite false 4503599627370496 (-52)).
  unfold Float64.div, Float64.prec, Float64.emax, SFdiv, SFdiv_core_binary.
  cbn [Zdigits2]. rewrite Hm.
  change (Z.pos (digits2_pos 4503599627370496)) with 53.
  replace (fexp 53 1024 (53 + e - (53 + -52))) with (e - 1)
    by (unfold fexp, emin; lia).
  replace (Z.min (e - 1) (e - -52)) with (e - 1) by lia.
  replace (e - -52 - (e - 1)) with 53 by lia.
  assert (Hq : Z.div_eucl (Z.shiftl (Zpos m) 53) 4503599627370496
               = (Zpos m~0, 0)).
  { rewrite Z.shiftl_mul_pow2 by lia.
    pose proof (Z.div_eucl_eq (Zpos m * 2 ^ 53) 4503599627370496) as Hdm.
    pose proof (Z.mod_pos_bound (Zpos m * 2 ^ 53) 4503599627370496 eq_refl) as Hb.
    unfold Z.modulo in Hb.
    destruct (Z.div_eucl (Zpos m * 2 ^ 53) 4503599627370496) as [q r].
    specialize (Hdm ltac:(discriminate)).
    change (2 ^ 53) with (2 * 4503599627370496) in Hdm.
    assert (q = Zpos m~0 /\ r = 0) as [-> ->]; [|reflexivity].
    rewrite Pos2Z.inj_xO. nia. }
  rewrite Hq. rewrite xorb_false_r.
  change (new_location 4503599627370496 0) with loc_Exact.
  apply binary_round_aux_exact_signed; lia.
Qed.

Lemma div_one_of_Z (d : Z) :
  Z.abs d < 2 ^ 53 ->
  Float64.div (Float64.of_Z d) (Float64.of_Z 1) = Float64.of_Z d.
Proof.
  intros Hd. destruct (Z.eq_dec d 0) as [-> | Hne]; [vm_compute; reflexivity|].
  destruct (of_Z_finite d Hne Hd) as [m [e [E [_ [Hm He]]]]].
  rewrite E. apply div_one; [exact Hm | lia].
Qed.

Lemma dropna_single {A : Type} (s : Frame (option A)) (a : A) :
  values (dropna s) = [a] -> exists i, In (i, Some a) s.
Proof.
  induction s as [|[i [b|]] s IH]; cbn [dropna values map snd]; intros H.
  - discriminate.
  - injection H as -> _. exists i. now left.
  - destruct (IH H) as [j Hj]. exists j. now right.
Qed.

(** X10.  When exactly one row has a duration, the mean is that duration,
    without any rounding, while variance and standard deviation are
    undefined: the report prints the duration as the average and [nan] on
    the two lines after it. *)
Theorem single_duration_statistics
    (df : Frame Row) (duration : Frame (option Z)) (d : Z) :
  subscription_duration df = Ok duration ->
  values (dropna duration) = [d] ->
  mean duration = Float64.of_Z d /\
  var duration = Float64.nan /\
  std duration = Float64.nan /\
  duration_report duration =
    [ Print ("Average subscription duration: " ++
             format_fixed 1 (Float64.of_Z d) ++ " days");
      Print "Variance of subscription duration: nan";
      Print "Standard deviation of subscription duration: nan";
      Print rule ].
Proof.
  intros Hd Hone.
  assert (Hn : count duration = 1) by (now rewrite count_length, Hone).
  assert (Hb : Z.abs d < 2 ^ 53).
  { destruct (dropna_single duration d Hone) as [i Hi].
    pose proof (duration_days_range df duration Hd i d Hi). lia. }
  assert (Hmean : mean duration = Float64.of_Z d).
  { rewrite mean_exact by (rewrite Hone, abs_sum_cons; cbn; lia).
    rewrite Hn, Hone, Zsum_cons. cbn [Z.eqb].
    change (Zsum []) with 0. rewrite Z.add_0_r. now apply div_one_of_Z. }
  assert (Hvar : var duration = Float64.nan).
  { unfold var. rewrite Hn. reflexivity. }
  assert (Hstd : std duration = Float64.nan).
  { unfold std. rewrite Hvar. reflexivity. }
  split; [exact Hmean|]. split; [exact Hvar|]. split; [exact Hstd|].
  unfold duration_report. rewrite Hmean, Hvar, Hstd. reflexivity.
Qed.

Lemma single_duration_statistics_witness :
  mean [(0%nat, None); (1%nat, Some 41); (2%nat, None)] = Float64.of_Z 41 /\
  var [(0%nat, None); (1%nat, Some 41); (2%nat, None)] = Float64.nan.
Proof.
  destruct (single_duration_statistics one_cancellation_cleaned
              [(0%nat, None); (1%nat, Some 41); (2%nat, None)] 41)
    as [Hmean [Hvar _]].
  - vm_compute. reflexivity.
  - reflexivity.
  - split; [exact Hmean | exact Hvar].
Defined.

(** ** The order of the rows *)

Lemma sorted_pairs_ext (l l' : list (Z * Z)) :
  StronglySorted Z.lt (map fst l) -> StronglySorted Z.lt (map fst l') ->
  (forall k n, In (k, n) l <-> In (k, n) l') -> l = l'.
Proof.
  revert l'. induction l as [|[k n] l IH]; intros l' Hs Hs' H.
  - destruct l' as [|[k' n'] l']; [reflexivity|].
    exfalso. apply (H k' n'). now left.
  - destruct l' as [|[k' n'] l']; [exfalso; apply (H k n); now left|].
    cbn [map fst] in Hs, Hs'.
    inversion Hs as [|? ? Hs1 Ha1]; inversion Hs' as [|? ? Hs2 Ha2]; subst.
    rewrite Forall_forall in Ha1, Ha2.
    assert (Hlt : forall (m : list (Z * Z)) a b, In (a, b) m -> In a (map fst m)).
    { intros m a b Hin. apply in_map_iff. now exists (a, b). }
    assert (Hhd : (k, n) = (k', n')).
    { destruct (proj1 (H k n) (or_introl eq_refl)) as [E|Hin]; [now symmetry|].
      destruct (proj2 (H k' n') (or_introl eq_refl)) as [E|Hin']; [exact E|].
      pose proof (Ha2 k (Hlt _ _ _ Hin)).
      pose proof (Ha1 k' (Hlt _ _ _ Hin')). lia. }
    injection Hhd as <- <-. f_equal. apply IH; [assumption | assumption |].
    intros k0 n0. split; intros Hin.
    + destruct (proj1 (H k0 n0) (or_intror Hin)) as [E|Hin']; [|exact Hin'].
      injection E as <- <-. pose proof (Ha1 k (Hlt _ _ _ Hin)). lia.
    + destruct (proj2 (H k0 n0) (or_intror Hin)) as [E|Hin']; [|exact Hin'].
      injection E as <- <-. pose proof (Ha2 k (Hlt _ _ _ Hin)). lia.
Qed.

Lemma filter_length_Permutation {A : Type} (f : A -> bool) (l l' : list A) :
  Permutation l l' -> List.length (filter f l) = List.length (filter f l').
Proof.
  induction 1 as [|x l l' _ IH|x y l|l l' l'' _ IH1 _ IH2]; cbn [filter].
  - reflexivity.
  - destruct (f x); cbn [List.length]; congruence.
  - destruct (f x), (f y); reflexivity.
  - congruence.
Qed.

(** X11.  The month buckets do not depend on the order of the rows: two
    tables with the same rows in any order give the same grouped table,
    hence the same heatmap cells and labels, and the same two counts on the
    console. *)
Theorem buckets_ignore_row_order (df df' : Frame Row) :
  Permutation df df' ->
  cancellations_by_month df = cancellations_by_month df' /\
  heatmap_data (cancellations_by_month df) =
    heatmap_data (cancellations_by_month df') /\
  List.length df = List.length df' /\
  List.length (dropna (column canceled_date df)) =
    List.length (dropna (column canceled_date df')).
Proof.
  intros Hp.
  assert (Hin : forall k, cancellations_in k df = cancellations_in k df').
  { intros k. unfold cancellations_in. f_equal.
    now apply filter_length_Permutation. }
  assert (E : cancellations_by_month df = cancellations_by_month df').
  { unfold cancellations_by_month. f_equal.
    destruct (grouped_spec df) as [Hs [_ Hn]].
    destruct (grouped_spec df') as [Hs' [_ Hn']].
    apply sorted_pairs_ext; [exact Hs | exact Hs' |].
    intros k n. rewrite Hn, Hn', Hin. reflexivity. }
  split; [exact E|]. split; [now rewrite E|].
  split; [now apply Permutation_length|].
  clear - Hp.
  induction Hp as [|[i r] l l' _ IH|[i r] [j s] l|l l' l'' _ IH1 _ IH2].
  - reflexivity.
  - unfold column in *. cbn [map fst snd dropna].
    destruct (canceled_date r); cbn [List.length]; congruence.
  - unfold column. cbn [map fst snd dropna].
    destruct (canceled_date r), (canceled_date s); reflexivity.
  - congruence.
Qed.

Lemma buckets_ignore_row_order_witness :
  cancellations_by_month (rev january_february_cleaned) =
  cancellations_by_month january_february_cleaned.
Proof.
  apply (buckets_ignore_row_order (rev january_february_cleaned)
           january_february_cleaned).
  apply Permutation_sym, Permutation_rev.
Defined.
